(** * Incident analyzer: the analysis route and the report exports

    A shallow embedding of [src/app/api/analyze/route.ts] (the [POST] handler)
    and of the client-side functions of [src/app/page.tsx] that feed it and
    export its result ([handleAnalyze], [downloadCSV], [downloadPDF]).

    JavaScript strings are sequences of UTF-16 code units, and that is how
    they are modelled: [length], [substring] and the regular expressions of
    the source all count code units. *)

From Stdlib Require Import List NArith ZArith QArith Qround Lqa Bool Lia String Ascii.
From Stdlib Require Import Floats.PrimFloat Floats.SpecFloat Floats.FloatOps DecimalString.
Import ListNotations.

Set Warnings "-register-all,-inexact-float".
Local Open Scope N_scope.

(** ** The JavaScript values and built-ins the source relies on *)

Module JS.

(** A UTF-16 code unit; every code unit of a real string is below 65536. *)
Definition char16 := N.
Definition jsstring := list char16.

(** An ASCII literal of the source, as code units. *)
Fixpoint lit (s : string) : jsstring :=
  match s with
  | EmptyString => []
  | String a s' => N_of_ascii a :: lit s'
  end.

(** The double quote, and a literal in which the apostrophe stands for it. *)
Definition dq : char16 := 34.
Definition litq (s : string) : jsstring :=
  map (fun c => if c =? 39 then dq else c) (lit s).

Definition nl : char16 := 10.

(** [s.length] *)
Definition length16 (s : jsstring) : Z := Z.of_nat (List.length s).

Fixpoint eqb16 (s t : jsstring) : bool :=
  match s, t with
  | [], [] => true
  | a :: s', b :: t' => (a =? b) && eqb16 s' t'
  | _, _ => false
  end.

(** [WhiteSpace] and [LineTerminator] of ECMAScript: what [\s] matches and
    what [trim] removes. *)
Definition isWhiteSpace (c : char16) : bool :=
  ((9 <=? c) && (c <=? 13)) || (c =? 32) || (c =? 160) || (c =? 0x1680)
  || ((0x2000 <=? c) && (c <=? 0x200A)) || (c =? 0x2028) || (c =? 0x2029)
  || (c =? 0x202F) || (c =? 0x205F) || (c =? 0x3000) || (c =? 0xFEFF).

(** [s.substring(start, end)]: both indices are clamped to [0, s.length] and
    swapped when out of order. *)
Definition clamp (len i : Z) : Z := Z.min (Z.max i 0) len.

Definition substring (s : jsstring) (start end_ : Z) : jsstring :=
  let len := length16 s in
  let a := clamp len start in
  let b := clamp len end_ in
  let from := Z.min a b in
  let to := Z.max a b in
  firstn (Z.to_nat (to - from)) (skipn (Z.to_nat from) s).

(** [s.startsWith(p)] and [s.endsWith(p)] *)
Fixpoint startsWith (s p : jsstring) {struct p} : bool :=
  match p, s with
  | [], _ => true
  | b :: p', a :: s' => (a =? b) && startsWith s' p'
  | _ :: _, [] => false
  end.

Definition endsWith (s p : jsstring) : bool :=
  startsWith (rev s) (rev p).

(** [s.trim()] *)
Fixpoint trimStart (s : jsstring) : jsstring :=
  match s with
  | c :: s' => if isWhiteSpace c then trimStart s' else s
  | [] => []
  end.

Definition trim (s : jsstring) : jsstring :=
  rev (trimStart (rev (trimStart s))).

(** [cells.join(sep)] on an array of strings *)
Fixpoint join (sep : jsstring) (cells : list jsstring) : jsstring :=
  match cells with
  | [] => []
  | [c] => c
  | c :: rest => c ++ sep ++ join sep rest
  end.

(** *** Surrogates and well-formed strings

    [isWellFormed] is [String.prototype.isWellFormed]: no lone surrogate. *)
Definition isHighSurrogate (c : char16) : bool := (0xD800 <=? c) && (c <=? 0xDBFF).
Definition isLowSurrogate (c : char16) : bool := (0xDC00 <=? c) && (c <=? 0xDFFF).

Fixpoint isWellFormed (s : jsstring) : bool :=
  match s with
  | [] => true
  | c :: rest =>
      if isHighSurrogate c then
        match rest with
        | d :: rest' => isLowSurrogate d && isWellFormed rest'
        | [] => false
        end
      else if isLowSurrogate c then false
      else isWellFormed rest
  end.

(** *** Regular expressions

    The fragment of ECMAScript patterns the source uses, with the
    backtracking semantics of the language: quantifiers are greedy, a match
    is tried at every start index from the left, and without the [g] flag
    [replace] rewrites the first match only.  Without the [m] flag [^] and
    [$] are the two ends of the input.  The only quantified sub-patterns of
    the source are a character class and a single character. *)
Inductive regex : Type :=
| Eps : regex
| Chr (c : char16) : regex
| StarClass (p : char16 -> bool) : regex
| Opt (r : regex) : regex
| Seq (r1 r2 : regex) : regex
| Bol : regex
| Eol : regex.

(** A continuation receives the index reached and the rest of the input, and
    answers with the rest of the input after the whole match. *)
Definition cont := nat -> jsstring -> option jsstring.

Fixpoint starClass (p : char16 -> bool) (pos : nat) (s : jsstring) (k : cont)
  : option jsstring :=
  match s with
  | c :: s' =>
      if p c then
        match starClass p (S pos) s' k with
        | Some r => Some r
        | None => k pos s
        end
      else k pos s
  | [] => k pos s
  end.

Fixpoint matchAt (r : regex) (pos : nat) (s : jsstring) (k : cont)
  : option jsstring :=
  match r with
  | Eps => k pos s
  | Chr c =>
      match s with
      | x :: s' => if x =? c then k (S pos) s' else None
      | [] => None
      end
  | StarClass p => starClass p pos s k
  | Opt r1 =>
      match matchAt r1 pos s k with
      | Some res => Some res
      | None => k pos s
      end
  | Seq r1 r2 => matchAt r1 pos s (fun pos' s' => matchAt r2 pos' s' k)
  | Bol => if Nat.eqb pos 0 then k pos s else None
  | Eol => match s with [] => k pos s | _ :: _ => None end
  end.

(** The continuation that ends a match where it stands. *)
Definition done : cont := fun _ rest => Some rest.

(** The leftmost match at or after [pos]: what precedes it (reversed in
    [before]) and what follows it. *)
Fixpoint search (r : regex) (pos : nat) (before s : jsstring)
  : option (jsstring * jsstring) :=
  match matchAt r pos s done with
  | Some rest => Some (rev before, rest)
  | None =>
      match s with
      | [] => None
      | c :: s' => search r (S pos) (c :: before) s'
      end
  end.

(** [s.replace(r, by_)] for a pattern without the [g] flag and a replacement
    without [$] patterns. *)
Definition replace (r : regex) (by_ s : jsstring) : jsstring :=
  match search r 0 [] s with
  | Some (pre, post) => pre ++ by_ ++ post
  | None => s
  end.

(** The pattern matching the characters of a literal, in order. *)
Definition chars (s : jsstring) : regex := fold_right (fun c r => Seq (Chr c) r) Eps s.

(** *** Values

    The values a decoded JSON document can hold, and [undefined], which a
    property read yields for an absent property.  Objects keep their
    properties in insertion order; a decoded object has distinct keys. *)
Inductive JsValue : Type :=
| JUndefined : JsValue
| JNull : JsValue
| JBool (b : bool) : JsValue
| JNumber (x : float) : JsValue
| JString (s : jsstring) : JsValue
| JArray (elems : list JsValue) : JsValue
| JObject (fields : list (jsstring * JsValue)) : JsValue.

(** What a [throw] carries: an [Error] instance with its name and message,
    or any other value. *)
Inductive Thrown : Type :=
| ErrorObject (name message : jsstring) : Thrown
| ThrownValue (v : JsValue) : Thrown.

(** The outcome of evaluating an expression: a value or an abrupt [throw]. *)
Inductive Completion (A : Type) : Type :=
| Normal (a : A) : Completion A
| Throw (e : Thrown) : Completion A.
Arguments Normal {A} a.
Arguments Throw {A} e.

Definition cbind {A B} (c : Completion A) (f : A -> Completion B) : Completion B :=
  match c with
  | Normal a => f a
  | Throw e => Throw e
  end.

Definition TypeError (message : jsstring) : Thrown := ErrorObject (lit "TypeError") message.
Definition SyntaxError (message : jsstring) : Thrown := ErrorObject (lit "SyntaxError") message.

(** [typeof v] *)
Definition typeof (v : JsValue) : jsstring :=
  match v with
  | JUndefined => lit "undefined"
  | JNull => lit "object"
  | JBool _ => lit "boolean"
  | JNumber _ => lit "number"
  | JString _ => lit "string"
  | JArray _ => lit "object"
  | JObject _ => lit "object"
  end.

(** [ToBoolean]: the falsy values are [undefined], [null], [false], the two
    zeros, [NaN] and the empty string. *)
Definition truthy (v : JsValue) : bool :=
  match v with
  | JUndefined => false
  | JNull => false
  | JBool b => b
  | JNumber x => negb (PrimFloat.eqb x 0%float || negb (PrimFloat.eqb x x))
  | JString s => match s with [] => false | _ :: _ => true end
  | JArray _ => true
  | JObject _ => true
  end.

Definition isArray (v : JsValue) : bool :=
  match v with
  | JArray _ => true
  | _ => false
  end.

(** The elements of an array, for [for (const x of v)] after [isArray]. *)
Definition elements (v : JsValue) : list JsValue :=
  match v with
  | JArray elems => elems
  | _ => []
  end.

(** The string a value is, once a [typeof] test has shown it to be one. *)
Definition stringValue (v : JsValue) : jsstring :=
  match v with
  | JString s => s
  | _ => []
  end.

Fixpoint ownProperty (key : jsstring) (fields : list (jsstring * JsValue))
  : option JsValue :=
  match fields with
  | [] => None
  | (k, v) :: rest => if eqb16 k key then Some v else ownProperty key rest
  end.

(** [v.key] for the property names the source reads ([ticket],
    [attachments], [text], [name], [mime]): none of them is defined on a
    built-in prototype, so only an own property of an object can answer.
    Reading a property of [null] or [undefined] throws. *)
Definition Get (v : JsValue) (key : jsstring) : Completion JsValue :=
  match v with
  | JUndefined =>
      Throw (TypeError (lit "Cannot read properties of undefined (reading '" ++ key ++ lit "')"))
  | JNull =>
      Throw (TypeError (lit "Cannot read properties of null (reading '" ++ key ++ lit "')"))
  | JObject fields =>
      match ownProperty key fields with
      | Some x => Normal x
      | None => Normal JUndefined
      end
  | _ => Normal JUndefined
  end.

Section Conversions.

(** [Number::toString] (the shortest decimal that reads back as the same
    double) is left to the platform. *)
Variable Number_toString : float -> jsstring.

(** [ToString], as a template literal applies it to a substitution.  An
    array is joined with commas, its [null] and [undefined] elements as
    empty strings.  A decoded object answers ["[object Object]"] unless an
    own property shadows [toString]: that property is data, not a function,
    and neither it nor the inherited [valueOf] yields a primitive. *)
Fixpoint ToString (v : JsValue) : Completion jsstring :=
  match v with
  | JUndefined => Normal (lit "undefined")
  | JNull => Normal (lit "null")
  | JBool true => Normal (lit "true")
  | JBool false => Normal (lit "false")
  | JNumber x => Normal (Number_toString x)
  | JString s => Normal s
  | JArray elems =>
      (fix joinElems (l : list JsValue) : Completion jsstring :=
         match l with
         | [] => Normal []
         | x :: rest =>
             cbind (match x with
                    | JUndefined | JNull => Normal []
                    | _ => ToString x
                    end)
               (fun a =>
                  match rest with
                  | [] => Normal a
                  | _ :: _ => cbind (joinElems rest) (fun b => Normal (a ++ lit "," ++ b))
                  end)
         end) elems
  | JObject fields =>
      match ownProperty (lit "toString") fields with
      | Some _ => Throw (TypeError (lit "Cannot convert object to primitive value"))
      | None => Normal (lit "[object Object]")
      end
  end.

End Conversions.

End JS.

(** ** The analysis route: [src/app/api/analyze/route.ts] *)

Module Route.
Import JS.

(** [SYSTEM_PROMPT]; the dash of its fourth guideline is U+2013. *)
Definition SYSTEM_PROMPT : jsstring :=
  litq "You are a security incident analyst." ++ [nl] ++
  litq "Return ONLY valid JSON matching this type:" ++ [nl] ++
  litq "{" ++ [nl] ++
  litq "  'csf': { 'Identify': string[], 'Protect': string[], 'Detect': string[], 'Respond': string[], 'Recover': string[] }," ++ [nl] ++
  litq "  'timeline': { 'time'?: string, 'event': string }[]," ++ [nl] ++
  litq "  'severity': 'Low' | 'Medium' | 'High' | 'Critical'," ++ [nl] ++
  litq "  'root_cause': string," ++ [nl] ++
  litq "  'impacted_assets': string[]," ++ [nl] ++
  litq "  'mitre'?: string[]," ++ [nl] ++
  litq "  'nist_800_53'?: string[]," ++ [nl] ++
  litq "  'customer_safe_summary': string," ++ [nl] ++
  litq "  'actions': { 'title': string, 'owner'?: string, 'priority'?: 'P1'|'P2'|'P3', 'due_window'?: string }[]" ++ [nl] ++
  litq "}" ++ [nl] ++
  litq "Guidelines:" ++ [nl] ++
  litq "- Build a concise timeline (use timestamps if present)." ++ [nl] ++
  litq "- State likely root cause and severity with a one-sentence justification." ++ [nl] ++
  litq "- Map to NIST CSF with 3" ++ [0x2013] ++
  litq "6 concise bullets per function, and include relevant NIST 800-53 control IDs (e.g., AC-2, IA-2, AU-6, IR-4, CP-2)." ++ [nl] ++
  litq "- Include 5" ++ [0x2013] ++ litq "10 concrete follow-up actions." ++ [nl] ++
  litq "- Audience for customer_safe_summary is non-technical." ++ [nl] ++
  litq "- Output JSON only, no prose.".

(** *** The extraction capability: [client.chat.completions.create] *)

Record ChatMessage : Type := { role : jsstring; content : jsstring }.

Record ChatRequest : Type :=
  { model : jsstring; temperature : float; messages : list ChatMessage }.

(** Of a completion the handler reads [choices[0]?.message?.content]. *)
Record ChoiceMessage : Type := { message_content : option jsstring }.
Record Choice : Type := { message : option ChoiceMessage }.
Record ChatCompletion : Type := { choices : list Choice }.

(** *** The handler's effects

    What a run leaves behind: the calls issued to the capability, oldest
    first, and the lines written to the console. *)
Inductive ConsoleLine : Type :=
| ConsoleLog (text : jsstring) : ConsoleLine
| ConsoleError (text : jsstring) (error : option Thrown) : ConsoleLine.

Record World : Type := { calls : list ChatRequest; console : list ConsoleLine }.

Definition initial : World := {| calls := []; console := [] |}.

(** A computation of the handler: it reads and extends the world and ends
    with a value or a [throw]; the effects of a computation that throws
    stay. *)
Definition M (A : Type) : Type := World -> Completion A * World.

Definition ret {A} (a : A) : M A := fun w => (Normal a, w).

Definition bind {A B} (m : M A) (f : A -> M B) : M B :=
  fun w =>
    match m w with
    | (Normal a, w') => f a w'
    | (Throw e, w') => (Throw e, w')
    end.

Definition lift {A} (c : Completion A) : M A := fun w => (c, w).

(** [try { body } catch (e) { handler e }] *)
Definition try_catch {A} (body : M A) (handler : Thrown -> M A) : M A :=
  fun w =>
    match body w with
    | (Normal a, w') => (Normal a, w')
    | (Throw e, w') => handler e w'
    end.

Definition console_log (text : jsstring) : M unit :=
  fun w => (Normal tt, {| calls := calls w; console := console w ++ [ConsoleLog text] |}).

Definition console_error (text : jsstring) (error : option Thrown) : M unit :=
  fun w => (Normal tt, {| calls := calls w; console := console w ++ [ConsoleError text error] |}).

Declare Scope route_scope.
Delimit Scope route_scope with route.
Notation "x <- m ;; k" := (bind m (fun x => k))
  (at level 61, m at next level, right associativity) : route_scope.
Notation "m ;;; k" := (bind m (fun _ => k))
  (at level 61, right associativity) : route_scope.

(** *** The response: [NextResponse.json(body, { status })] *)
Record Response : Type := { status : Z; body : JsValue }.

Definition NextResponse_json (body : JsValue) (status : Z) : Response :=
  {| status := status; body := body |}.

Definition error_body (message : jsstring) : JsValue :=
  JObject [(lit "error", JString message)].

Definition analysis_body (analysis : JsValue) : JsValue :=
  JObject [(lit "analysis", analysis)].

(** *** The two patterns that strip a code fence

    [/^```json\s*\n?/] and [/\n?```\s*$/] *)
Definition fenceOpen : regex :=
  Seq Bol (Seq (chars (lit "```json")) (Seq (StarClass isWhiteSpace) (Opt (Chr nl)))).

Definition fenceClose : regex :=
  Seq (Opt (Chr nl)) (Seq (chars (lit "```")) (Seq (StarClass isWhiteSpace) Eol)).

(** [content.replace(/^```json\s*\n?/, '').replace(/\n?```\s*$/, '')] *)
Definition stripFence (content : jsstring) : jsstring :=
  replace fenceClose [] (replace fenceOpen [] content).

(** Three back-ticks and then white space up to the end of the text: what
    the closing pattern matches after its optional line feed. *)
Definition closesHere (s : jsstring) : bool :=
  startsWith s (lit "```") && forallb isWhiteSpace (skipn 3 s).

(** [x || ''] on an optional string *)
Definition orEmpty (x : option jsstring) : jsstring :=
  match x with
  | Some (c :: s) => c :: s
  | _ => []
  end.

(** [resp.choices[0]?.message?.content || ''] *)
Definition contentOf (resp : ChatCompletion) : jsstring :=
  orEmpty
    match choices resp with
    | c :: _ =>
        match message c with
        | Some m => message_content m
        | None => None
        end
    | [] => None
    end.

(** [error instanceof Error ? error.message : 'Analysis failed'] *)
Definition errorMessage (error : Thrown) : jsstring :=
  match error with
  | ErrorObject _ message => message
  | ThrownValue _ => lit "Analysis failed"
  end.

(** The request, as the handler sees it: what [request.json()] resolves to
    or rejects with, and the credential of the environment. *)
Record NextRequest : Type :=
  { json : Completion JsValue; OPENAI_API_KEY : option jsstring }.

Section Handler.

Variable Number_toString : float -> jsstring.

(** [JSON.parse]: the decoded value, or the [SyntaxError] it throws. *)
Variable JSON_parse : jsstring -> Completion JsValue.

(** The capability: what a call answers, given the calls issued before it. *)
Variable create : list ChatRequest -> ChatRequest -> Completion ChatCompletion.

Local Open Scope route_scope.

(** [await client.chat.completions.create(req)]: the call is issued, then
    its outcome is awaited. *)
Definition call (req : ChatRequest) : M ChatCompletion :=
  fun w => (create (calls w) req, {| calls := calls w ++ [req]; console := console w |}).

(** [const { ticket, attachments } = body] *)
Definition destructure (body : JsValue) : Completion (JsValue * JsValue) :=
  match body with
  | JUndefined =>
      Throw (TypeError (lit "Cannot destructure property 'ticket' of 'body' as it is undefined."))
  | JNull =>
      Throw (TypeError (lit "Cannot destructure property 'ticket' of 'body' as it is null."))
  | _ =>
      cbind (Get body (lit "ticket")) (fun ticket =>
      cbind (Get body (lit "attachments")) (fun attachments =>
      Normal (ticket, attachments)))
  end.

(** [text.substring(0, 6000)] on whatever [att.text] is: only a string has
    the method. *)
Definition text_substring (text : JsValue) : Completion jsstring :=
  match text with
  | JString s => Normal (substring s 0 6000)
  | JUndefined =>
      Throw (TypeError (lit "Cannot read properties of undefined (reading 'substring')"))
  | JNull =>
      Throw (TypeError (lit "Cannot read properties of null (reading 'substring')"))
  | _ => Throw (TypeError (lit "att.text.substring is not a function"))
  end.

(** The body of the loop over the attachments (lines 41-44), from the
    prompt built so far. *)
Fixpoint appendAttachments (userPrompt : jsstring) (attachments : list JsValue)
  : Completion jsstring :=
  match attachments with
  | [] => Normal userPrompt
  | att :: rest =>
      cbind (Get att (lit "text")) (fun text =>
      cbind (text_substring text) (fun truncatedText =>
      cbind (Get att (lit "name")) (fun name =>
      cbind (ToString Number_toString name) (fun name =>
      cbind (Get att (lit "mime")) (fun mime =>
      cbind (ToString Number_toString mime) (fun mime =>
      appendAttachments
        (userPrompt ++ lit "ATTACHMENT: " ++ name ++ lit " (" ++ mime ++ lit ")" ++ [nl]
           ++ truncatedText ++ [nl; nl])
        rest))))))
  end.

(** Lines 38-45: the user prompt. *)
Definition buildUserPrompt (ticket : jsstring) (attachments : JsValue)
  : Completion jsstring :=
  let userPrompt := lit "TICKET:" ++ [nl] ++ ticket ++ [nl; nl] in
  if truthy attachments && isArray attachments then
    appendAttachments userPrompt (elements attachments)
  else Normal userPrompt.

Definition primaryRequest (userPrompt : jsstring) : ChatRequest :=
  {| model := lit "gpt-4o-mini";
     temperature := 0.2%float;
     messages := [ {| role := lit "system"; content := SYSTEM_PROMPT |};
                   {| role := lit "user"; content := userPrompt |} ] |}.

Definition fixRequest (content : jsstring) : ChatRequest :=
  {| model := lit "gpt-4o-mini";
     temperature := 0.1%float;
     messages := [ {| role := lit "system";
                      content := lit "Fix malformed JSON. Output ONLY valid JSON." |};
                   {| role := lit "user";
                      content := lit "Fix this JSON:" ++ [nl] ++ content |} ] |}.

(** Lines 67-84: parse, and on failure ask once for a fix and parse that. *)
Definition parseOrFix (content : jsstring) : M JsValue :=
  try_catch (lift (JSON_parse content))
    (fun parseError =>
       console_log (lit "Initial parse failed, attempting fix...") ;;;
       fixResp <- call (fixRequest content) ;;
       let fixedContent := contentOf fixResp in
       let fixedContent := stripFence fixedContent in
       lift (JSON_parse fixedContent)).

(** [POST] *)
Definition POST (request : NextRequest) : M Response :=
  try_catch
    (body <- lift (json request) ;;
     ta <- lift (destructure body) ;;
     let ticket := fst ta in
     let attachments := snd ta in
     if negb (truthy ticket) || negb (eqb16 (typeof ticket) (lit "string")) then
       ret (NextResponse_json (error_body (lit "Invalid ticket description")) 400)
     else if (length16 (stringValue ticket) >? 10000)%Z then
       ret (NextResponse_json (error_body (lit "Ticket description too long")) 400)
     else
       userPrompt <- lift (buildUserPrompt (stringValue ticket) attachments) ;;
       match orEmpty (OPENAI_API_KEY request) with
       | [] =>
           console_error (lit "OpenAI API key not configured") None ;;;
           ret (NextResponse_json (error_body (lit "OpenAI API key not configured")) 500)
       | _ :: _ =>
           resp <- call (primaryRequest userPrompt) ;;
           let content := contentOf resp in
           let content := stripFence content in
           analysis <- parseOrFix content ;;
           ret (NextResponse_json (analysis_body analysis) 200)
       end)
    (fun error =>
       console_error (lit "Analysis error:") (Some error) ;;;
       ret (NextResponse_json (error_body (errorMessage error)) 500)).

End Handler.

(** *** The requests the statements are about *)

(** The body carries a ticket that passes the two checks of lines 30-36. *)
Definition validTicket (fields : list (jsstring * JsValue)) (ticket : jsstring) : Prop :=
  ownProperty (lit "ticket") fields = Some (JString ticket)
  /\ ticket <> [] /\ (length16 ticket <= 10000)%Z.

(** What the destructuring binds [attachments] to. *)
Definition attachmentsOf (fields : list (jsstring * JsValue)) : JsValue :=
  match ownProperty (lit "attachments") fields with
  | Some v => v
  | None => JUndefined
  end.

(** The credential is present and not empty. *)
Definition configured (request : NextRequest) : Prop :=
  exists c key, OPENAI_API_KEY request = Some (c :: key).

End Route.

(** ** The page: [src/app/page.tsx] *)

Module Page.
Import JS.

(** *** The report *)

Inductive Priority : Type := P1 | P2 | P3.

Record Action : Type :=
  { title : jsstring;
    owner : option jsstring;
    priority : option Priority;
    due_window : option jsstring }.

Inductive Severity : Type := Low | Medium | High | Critical.

Record Csf : Type :=
  { Identify : list jsstring;
    Protect : list jsstring;
    Detect : list jsstring;
    Respond : list jsstring;
    Recover : list jsstring }.

Record TimelineEvent : Type := { time : option jsstring; event : jsstring }.

Record Analysis : Type :=
  { csf : Csf;
    timeline : list TimelineEvent;
    severity : Severity;
    root_cause : jsstring;
    impacted_assets : list jsstring;
    mitre : option (list jsstring);
    nist_800_53 : option (list jsstring);
    customer_safe_summary : jsstring;
    actions : list Action }.

Definition priorityString (p : Priority) : jsstring :=
  match p with
  | P1 => lit "P1"
  | P2 => lit "P2"
  | P3 => lit "P3"
  end.

(** [x || ''] on an optional string *)
Definition orEmpty (x : option jsstring) : jsstring :=
  match x with
  | Some (c :: s) => c :: s
  | _ => []
  end.

(** *** [downloadCSV]: the text handed to the [Blob], or nothing when there
    is no analysis. *)
Definition csvHeader : list jsstring :=
  [lit "Title"; lit "Owner"; lit "Priority"; lit "Due Window"].

Definition actionCells (a : Action) : list jsstring :=
  [ title a;
    orEmpty (owner a);
    orEmpty (option_map priorityString (priority a));
    orEmpty (due_window a) ].

Definition quoteCell (cell : jsstring) : jsstring := [dq] ++ cell ++ [dq].

Definition csvRow (row : list jsstring) : jsstring :=
  join (lit ",") (map quoteCell row).

Definition downloadCSV (analysis : option Analysis) : option jsstring :=
  match analysis with
  | None => None
  | Some analysis =>
      Some (join [nl] (map csvRow (csvHeader :: map actionCells (actions analysis))))
  end.

(** *** [downloadPDF]: the pages laid out in the document

    Lengths are in millimetres.  JavaScript computes them in double
    precision; here they are exact rationals, which agree with the doubles
    as long as every intermediate value is an integer below 2^53.  The
    scaled height is the exact quotient here and the nearest double in the
    code; the canvas is taken to have a positive width: at width 0 the
    quotient of the code is Infinity or NaN, where the rationals give 0. *)
Record Canvas : Type := { width : Z; height : Z }.

(** One [addImage(imgData, 'PNG', x, y, w, h)]. *)
Record Placement : Type := { x : Q; y : Q; w : Q; h : Q }.

(** A document is its pages, first page first, each with the images placed
    on it; [new jsPDF] starts with one empty page. *)
Definition Pdf := list (list Placement).

Definition newPdf : Pdf := [[]].

Definition addPage (pdf : Pdf) : Pdf := pdf ++ [[]].

Definition addImage (pdf : Pdf) (p : Placement) : Pdf :=
  match rev pdf with
  | last :: before => rev before ++ [last ++ [p]]
  | [] => []
  end.

Local Open Scope Q_scope.

Definition margin : Q := 15.
Definition imgWidth : Q := 210 - (margin * 2).
Definition pageHeight : Q := 297 - (margin * 2).

(** The loop of lines 328-333; [None] when [fuel] iterations do not reach
    its end. *)
Fixpoint addPages (fuel : nat) (imgHeight heightLeft : Q) (pdf : Pdf) : option Pdf :=
  if Qle_bool 0 heightLeft then
    match fuel with
    | O => None
    | S fuel' =>
        let position := margin - (imgHeight - heightLeft) in
        let pdf := addPage pdf in
        let pdf := addImage pdf {| x := margin; y := position; w := imgWidth; h := imgHeight |} in
        addPages fuel' imgHeight (heightLeft - pageHeight) pdf
    end
  else Some pdf.

(** Lines 311-333, from the rendered canvas to the document to be saved. *)
Definition downloadPDF (fuel : nat) (canvas : Canvas) : option Pdf :=
  let pdf := newPdf in
  let imgHeight := (inject_Z (height canvas) * imgWidth) / inject_Z (width canvas) in
  let heightLeft := imgHeight in
  let position := margin in
  let pdf := addImage pdf {| x := margin; y := position; w := imgWidth; h := imgHeight |} in
  let heightLeft := heightLeft - pageHeight in
  addPages fuel imgHeight heightLeft pdf.

(** Page [i] of the document holds the image once, [i] usable page heights
    up from where the first page holds it. *)
Fixpoint laidOut (i : nat) (pdf : Pdf) : Prop :=
  match pdf with
  | [] => True
  | page :: rest =>
      (exists p, page = [p] /\ y p == margin - inject_Z (Z.of_nat i) * pageHeight)
      /\ laidOut (S i) rest
  end.

Local Close Scope Q_scope.

(** *** [handleAnalyze]: from the chosen files to the attachments sent *)

Record File : Type := { name : jsstring; type : jsstring; bytes : list N }.

Record Attachment : Type :=
  { att_name : jsstring; att_mime : jsstring; att_text : jsstring }.

(** An item of a page's text content: a text run with its [str], or marked
    content without one. *)
Definition TextItem := option jsstring.

(** The kinds of file the mapped function keeps: the tests of lines
    200-209. *)
Definition isPlainText (file : File) : bool :=
  startsWith (type file) (lit "text/")
  || endsWith (name file) (lit ".log")
  || endsWith (name file) (lit ".txt")
  || endsWith (name file) (lit ".csv").

Definition supported (file : File) : bool :=
  endsWith (name file) (lit ".docx") || endsWith (name file) (lit ".pdf")
  || isPlainText file.

Section Normalizer.

(** The decoders of the platform and of the libraries: [file.text()],
    [mammoth.extractRawText] (its [value]) and pdfjs ([getDocument], then
    per page [getPage] and [getTextContent]). *)
Variable File_text : File -> Completion jsstring.
Variable mammoth_extractRawText : File -> Completion jsstring.
Variable pdfjs_getDocument : File -> Completion (list (Completion (list TextItem))).

Definition extractTextFromDocx (file : File) : jsstring :=
  match mammoth_extractRawText file with
  | Normal value => value
  | Throw _ =>
      lit "[Error reading " ++ name file ++ lit ": Could not extract text from DOCX file]"
  end.

Definition pageText (items : list TextItem) : jsstring :=
  join (lit " ") (map (fun item => match item with Some str => str | None => [] end) items).

Fixpoint pdfPages (fullText : jsstring) (pages : list (Completion (list TextItem)))
  : Completion jsstring :=
  match pages with
  | [] => Normal fullText
  | page :: rest =>
      cbind page (fun items => pdfPages (fullText ++ pageText items ++ [nl; nl]) rest)
  end.

Definition extractTextFromPdf (file : File) : jsstring :=
  match cbind (pdfjs_getDocument file) (pdfPages []) with
  | Normal fullText => trim fullText
  | Throw _ =>
      lit "[Error reading " ++ name file ++ lit ": Could not extract text from PDF file]"
  end.

(** [x || fallback] on a string *)
Definition orElse (x fallback : jsstring) : jsstring :=
  match x with
  | [] => fallback
  | _ :: _ => x
  end.

(** The function mapped over the files (lines 196-222): an attachment, or
    [null] for a file of no supported kind. *)
Definition toAttachment (file : File) : Completion (option Attachment) :=
  if endsWith (name file) (lit ".docx") then
    Normal (Some {| att_name := name file;
                    att_mime := lit "application/vnd.openxmlformats-officedocument.wordprocessingml.document";
                    att_text := extractTextFromDocx file |})
  else if endsWith (name file) (lit ".pdf") then
    Normal (Some {| att_name := name file;
                    att_mime := lit "application/pdf";
                    att_text := extractTextFromPdf file |})
  else if startsWith (type file) (lit "text/")
          || endsWith (name file) (lit ".log")
          || endsWith (name file) (lit ".txt")
          || endsWith (name file) (lit ".csv") then
    cbind (File_text file) (fun text =>
    Normal (Some {| att_name := name file;
                    att_mime := orElse (type file) (lit "text/plain");
                    att_text := text |}))
  else Normal None.

(** [Promise.all(files.map(...))]: every outcome in the order of the files,
    or a rejection (here that of the first file that has one). *)
Fixpoint Promise_all {A} (outcomes : list (Completion A)) : Completion (list A) :=
  match outcomes with
  | [] => Normal []
  | c :: rest => cbind c (fun a => cbind (Promise_all rest) (fun l => Normal (a :: l)))
  end.

(** [attachments.filter(Boolean)] *)
Fixpoint filterBoolean {A} (l : list (option A)) : list A :=
  match l with
  | [] => []
  | Some a :: rest => a :: filterBoolean rest
  | None :: rest => filterBoolean rest
  end.

(** Lines 195-223. *)
Definition collectAttachments (files : list File) : Completion (list Attachment) :=
  cbind (Promise_all (map toAttachment files)) (fun attachments =>
  Normal (filterBoolean attachments)).

(** The body of the request (line 228), as the route decodes it. *)
Definition attachmentValue (a : Attachment) : JsValue :=
  JObject [ (lit "name", JString (att_name a));
            (lit "mime", JString (att_mime a));
            (lit "text", JString (att_text a)) ].

Definition requestBody (ticket : jsstring) (attachments : list Attachment) : JsValue :=
  JObject [ (lit "ticket", JString ticket);
            (lit "attachments", JArray (map attachmentValue attachments)) ].

(** [handleAnalyze] up to the request it sends: nothing when the ticket is
    blank, else the body for [/api/analyze], or the error of a file that
    could not be read. *)
Definition handleAnalyze (ticket : jsstring) (files : list File)
  : option (Completion JsValue) :=
  match trim ticket with
  | [] => None
  | _ :: _ =>
      Some (cbind (collectAttachments files) (fun attachments =>
            Normal (requestBody ticket attachments)))
  end.

End Normalizer.

End Page.

(** ** Instances of the platform for the examples

    The theorems below hold for every [JSON.parse], every capability and
    every decoder; the examples run them on these. *)

Module Samples.
Import JS.

(** [Number::toString] on the doubles that are integers, zeros, infinities
    or [NaN]; the examples hold no other number. *)
Definition integerValue (x : float) : option Z :=
  match Prim2SF x with
  | S754_zero _ => Some 0%Z
  | S754_finite s m e =>
      let sign := if s then (-1)%Z else 1%Z in
      if (0 <=? e)%Z then Some (sign * Z.pos m * 2 ^ e)%Z
      else
        let d := (2 ^ (- e))%Z in
        if (Z.pos m mod d =? 0)%Z then Some (sign * (Z.pos m / d))%Z else None
  | _ => None
  end.

Definition Number_toString (x : float) : jsstring :=
  match integerValue x with
  | Some z => lit (NilZero.string_of_int (Z.to_int z))
  | None =>
      if PrimFloat.eqb x infinity then lit "Infinity"
      else if PrimFloat.eqb x neg_infinity then lit "-Infinity"
      else lit "NaN"
  end.

(** A decoder for a fragment of JSON: objects, arrays, strings without
    escapes and the literals [true], [false] and [null], with insignificant
    white space.  Any other text is a [SyntaxError]. *)
Definition isJsonSpace (c : char16) : bool :=
  (c =? 32) || (c =? 9) || (c =? 10) || (c =? 13).

Fixpoint skipSpace (s : jsstring) : jsstring :=
  match s with
  | c :: s' => if isJsonSpace c then skipSpace s' else s
  | [] => []
  end.

Fixpoint readString (s : jsstring) : option (jsstring * jsstring) :=
  match s with
  | [] => None
  | c :: s' =>
      if c =? dq then Some ([], s')
      else if (c =? 92) || (c <? 32) then None
      else
        match readString s' with
        | Some (str, rest) => Some (c :: str, rest)
        | None => None
        end
  end.

Definition readLiteral (word : jsstring) (v : JsValue) (s : jsstring)
  : option (JsValue * jsstring) :=
  if startsWith s word then Some (v, skipn (List.length word) s) else None.

Section Decoder.

Variable value : jsstring -> option (JsValue * jsstring).

Fixpoint readElements (n : nat) (s : jsstring) : option (list JsValue * jsstring) :=
  match n with
  | O => None
  | S n' =>
      match value s with
      | Some (v, s1) =>
          match skipSpace s1 with
          | 93 :: s2 => Some ([v], s2)
          | 44 :: s2 =>
              match readElements n' s2 with
              | Some (vs, s3) => Some (v :: vs, s3)
              | None => None
              end
          | _ => None
          end
      | None => None
      end
  end.

Fixpoint readMembers (n : nat) (s : jsstring)
  : option (list (jsstring * JsValue) * jsstring) :=
  match n with
  | O => None
  | S n' =>
      match skipSpace s with
      | 34 :: s1 =>
          match readString s1 with
          | Some (key, s2) =>
              match skipSpace s2 with
              | 58 :: s3 =>
                  match value s3 with
                  | Some (v, s4) =>
                      match skipSpace s4 with
                      | 125 :: s5 => Some ([(key, v)], s5)
                      | 44 :: s5 =>
                          match readMembers n' s5 with
                          | Some (ms, s6) => Some ((key, v) :: ms, s6)
                          | None => None
                          end
                      | _ => None
                      end
                  | None => None
                  end
              | _ => None
              end
          | None => None
          end
      | _ => None
      end
  end.

End Decoder.

Fixpoint readValue (fuel : nat) (s : jsstring) : option (JsValue * jsstring) :=
  match fuel with
  | O => None
  | S fuel' =>
      match skipSpace s with
      | 34 :: s1 =>
          match readString s1 with
          | Some (str, rest) => Some (JString str, rest)
          | None => None
          end
      | 91 :: s1 =>
          match skipSpace s1 with
          | 93 :: s2 => Some (JArray [], s2)
          | _ =>
              match readElements (readValue fuel') fuel' s1 with
              | Some (vs, rest) => Some (JArray vs, rest)
              | None => None
              end
          end
      | 123 :: s1 =>
          match skipSpace s1 with
          | 125 :: s2 => Some (JObject [], s2)
          | _ =>
              match readMembers (readValue fuel') fuel' s1 with
              | Some (ms, rest) => Some (JObject ms, rest)
              | None => None
              end
          end
      | 116 :: _ => readLiteral (lit "true") (JBool true) (skipSpace s)
      | 102 :: _ => readLiteral (lit "false") (JBool false) (skipSpace s)
      | 110 :: _ => readLiteral (lit "null") JNull (skipSpace s)
      | _ => None
      end
  end.

Definition JSON_parse (text : jsstring) : Completion JsValue :=
  match readValue (S (List.length text)) text with
  | Some (v, rest) =>
      match skipSpace rest with
      | [] => Normal v
      | _ :: _ =>
          Throw (SyntaxError (lit "Unexpected non-whitespace character after JSON"))
      end
  | None => Throw (SyntaxError (lit "Unexpected token or end of JSON input"))
  end.

(** A capability that answers the n-th call with the n-th entry of a
    script, whatever the request, and fails once the script is used up. *)
Definition scripted (script : list (Completion Route.ChatCompletion))
  (before : list Route.ChatRequest) (req : Route.ChatRequest)
  : Completion Route.ChatCompletion :=
  nth (List.length before) script
    (Throw (ErrorObject (lit "APIConnectionError") (lit "Connection error."))).

(** The completion whose first choice has the given text. *)
Definition completion (text : jsstring) : Route.ChatCompletion :=
  {| Route.choices :=
       [ {| Route.message := Some {| Route.message_content := Some text |} |} ] |}.

Definition answer (text : jsstring) : Completion Route.ChatCompletion :=
  Normal (completion text).

(** A request with a body and a configured credential. *)
Definition requestOf (body : JsValue) : Route.NextRequest :=
  {| Route.json := Normal body; Route.OPENAI_API_KEY := Some (lit "sk-test") |}.

Definition ticketBody (ticket : JsValue) : JsValue :=
  JObject [(lit "ticket", ticket)].

(** The narrative of the specification's scenario. *)
Definition narrative : jsstring :=
  lit "Suspicious login from new country followed by mass file download".

(** A payload, the value it decodes to, and the same payload cut short. *)
Definition payload : jsstring := litq "{'severity': 'High', 'actions': []}".
Definition payloadValue : JsValue :=
  JObject [(lit "severity", JString (lit "High")); (lit "actions", JArray [])].
Definition truncated : jsstring := litq "{'severity': 'High', 'acti".

(** The prompt of a ticket without attachments. *)
Definition promptOf (ticket : jsstring) : jsstring :=
  lit "TICKET:" ++ [nl] ++ ticket ++ [nl; nl].

(** A ticket of 10,001 characters. *)
Definition longTicket : jsstring := repeat 120 (Z.to_nat 10001).

Definition fencedJson (text : jsstring) : jsstring :=
  lit "```json" ++ [nl] ++ text ++ [nl] ++ lit "```".

(** The same fence without the language tag. *)
Definition fencedPlain (text : jsstring) : jsstring :=
  lit "```" ++ [nl] ++ text ++ [nl] ++ lit "```".

(** 5,999 letters and then U+1F600, which takes two code units: the pair
    sits across the 6,000 boundary. *)
Definition splitPair : jsstring := repeat 97 (Z.to_nat 5999) ++ [0xD83D; 0xDE00].

(** A short text that ends with the same character. *)
Definition wholePair : jsstring := lit "disk full " ++ [0xD83D; 0xDE00].

(** An attachment without a [text]. *)
Definition noText : JsValue := JObject [(lit "name", JString (lit "notes.txt"))].

(** Three uploads, the last one of no supported kind, and decoders that
    take the bytes of a file for its text. *)
Definition report : Page.File :=
  {| Page.name := lit "report.docx";
     Page.type := lit "application/vnd.openxmlformats-officedocument.wordprocessingml.document";
     Page.bytes := lit "Incident report" |}.

Definition trace : Page.File :=
  {| Page.name := lit "trace.log"; Page.type := []; Page.bytes := lit "login failed" |}.

Definition image : Page.File :=
  {| Page.name := lit "image.png"; Page.type := lit "image/png";
     Page.bytes := [137; 80; 78; 71] |}.

Definition File_text (file : Page.File) : Completion jsstring :=
  Normal (Page.bytes file).

Definition mammoth_extractRawText (file : Page.File) : Completion jsstring :=
  Normal (Page.bytes file).

Definition pdfjs_getDocument (file : Page.File)
  : Completion (list (Completion (list Page.TextItem))) :=
  Normal [Normal [Some (Page.bytes file)]].

(** A report with one action that names no owner, priority or window. *)
Definition oneAction : Page.Action :=
  {| Page.title := lit "Rotate credentials";
     Page.owner := None; Page.priority := None; Page.due_window := None |}.

End Samples.

(** ** The component [Home] of [src/app/page.tsx]: its state and handlers *)

Module Home.
Import JS Page.

(** The state the component keeps with [useState]. *)
Record State : Type :=
  { ticket : jsstring;
    files : list File;
    loading : bool;
    analysis : JsValue;
    error : jsstring }.

Definition setLoading (st : State) (v : bool) : State :=
  {| ticket := ticket st; files := files st; loading := v;
     analysis := analysis st; error := error st |}.

Definition setAnalysis (st : State) (v : JsValue) : State :=
  {| ticket := ticket st; files := files st; loading := loading st;
     analysis := v; error := error st |}.

Definition setError (st : State) (v : jsstring) : State :=
  {| ticket := ticket st; files := files st; loading := loading st;
     analysis := analysis st; error := v |}.

Definition setFiles (st : State) (v : list File) : State :=
  {| ticket := ticket st; files := v; loading := loading st;
     analysis := analysis st; error := error st |}.

(** [items.filter((_, i) => i !== index)], counting from [i]. *)
Fixpoint filterIndex {A} (i index : Z) (items : list A) : list A :=
  match items with
  | [] => []
  | item :: rest =>
      if (i =? index)%Z then filterIndex (i + 1) index rest
      else item :: filterIndex (i + 1) index rest
  end.

(** [removeFile] *)
Definition removeFile (st : State) (index : Z) : State :=
  setFiles st (filterIndex 0 index (files st)).

(** [response.ok] *)
Definition ok (response : Route.Response) : bool :=
  (200 <=? Route.status response)%Z && (Route.status response <=? 299)%Z.

Section Analyze.

Variable File_text : File -> Completion jsstring.
Variable mammoth_extractRawText : File -> Completion jsstring.
Variable pdfjs_getDocument : File -> Completion (list (Completion (list TextItem))).

(** [fetch('/api/analyze', ...)] with the body decoded: the response, or
    the failure of the request. *)
Variable fetch : JsValue -> Completion Route.Response.

(** [JSON.stringify]: the text of a response body, as [response.text()]
    gives it. *)
Variable JSON_stringify : JsValue -> jsstring.

(** Lines 195-237: the attachments, the request, and the analysis of the
    response. *)
Definition analyze (st : State) : Completion JsValue :=
  cbind (collectAttachments File_text mammoth_extractRawText pdfjs_getDocument (files st))
    (fun attachments =>
  cbind (fetch (requestBody (ticket st) attachments)) (fun response =>
  if negb (ok response) then
    let errorData := JSON_stringify (Route.body response) in
    Throw (ErrorObject (lit "Error") (lit "Analysis failed: " ++ errorData))
  else
    let data := Route.body response in
    Get data (lit "analysis"))).

(** [handleAnalyze]: the state it leaves and what it writes to the console. *)
Definition handleAnalyze (st : State) : State * list Route.ConsoleLine :=
  match trim (ticket st) with
  | [] => (setError st (lit "Please enter a ticket description"), [])
  | _ :: _ =>
      let st := setLoading st true in
      let st := setError st [] in
      let st := setAnalysis st JNull in
      match analyze st with
      | Normal analysis => (setLoading (setAnalysis st analysis) false, [])
      | Throw err =>
          (setLoading (setError st (Route.errorMessage err)) false,
           [Route.ConsoleError (lit "Analysis error:") (Some err)])
      end
  end.

End Analyze.

(** The route of this repository behind [fetch]: the body goes through
    JSON and back, the handler runs in an environment with the given
    credential. *)
Definition routeFetch (Number_toString : float -> jsstring)
  (JSON_parse : jsstring -> Completion JsValue)
  (create : list Route.ChatRequest -> Route.ChatRequest -> Completion Route.ChatCompletion)
  (key : option jsstring) (body : JsValue) : Completion Route.Response :=
  fst (Route.POST Number_toString JSON_parse create
         {| Route.json := Normal body; Route.OPENAI_API_KEY := key |} Route.initial).

End Home.

(** ** Reading an export back

    The fields of a delimited text, as a reader that knows only the double
    quote takes them: what stands between the first and the second quote,
    between the third and the fourth, and so on. *)

Module CsvReader.
Import JS Page.

Fixpoint readCells (inside : option jsstring) (text : jsstring) : list jsstring :=
  match text with
  | [] => []
  | c :: rest =>
      match inside with
      | None => if c =? dq then readCells (Some []) rest else readCells None rest
      | Some cell =>
          if c =? dq then rev cell :: readCells None rest
          else readCells (Some (c :: cell)) rest
      end
  end.

(** No field of the action holds a double quote. *)
Definition quoteFree (a : Action) : Prop :=
  ~ In dq (title a)
  /\ (forall o, owner a = Some o -> ~ In dq o)
  /\ (forall d, due_window a = Some d -> ~ In dq d).

End CsvReader.

(** ** The pages of an export *)

Module PdfPages.
Import Page.
Local Open Scope Q_scope.

(** The page holds the image once, at the left margin and at full size,
    [i] usable page heights up from where the first page holds it. *)
Definition placedAt (imgHeight : Q) (i : nat) (page : list Placement) : Prop :=
  exists p,
    page = [p] /\ x p == margin /\ w p == imgWidth /\ h p == imgHeight
    /\ y p == margin - inject_Z (Z.of_nat i) * pageHeight.

End PdfPages.

(** ** More instances for the examples *)

Module MoreSamples.
Import JS.

(** [JSON.stringify] on the values of the examples: strings are quoted as
    they are (none of them holds a character that needs an escape), an
    [undefined] property is left out and an [undefined] element is
    [null]. *)
Fixpoint JSON_stringify (v : JsValue) : jsstring :=
  match v with
  | JUndefined => lit "null"
  | JNull => lit "null"
  | JBool true => lit "true"
  | JBool false => lit "false"
  | JNumber x => Samples.Number_toString x
  | JString s => [dq] ++ s ++ [dq]
  | JArray elems =>
      lit "[" ++
      (fix items (l : list JsValue) : jsstring :=
         match l with
         | [] => []
         | [x] => JSON_stringify x
         | x :: rest => JSON_stringify x ++ lit "," ++ items rest
         end) elems
      ++ lit "]"
  | JObject fields =>
      lit "{" ++
      (fix members (first : bool) (l : list (jsstring * JsValue)) : jsstring :=
         match l with
         | [] => []
         | (_, JUndefined) :: rest => members first rest
         | (k, x) :: rest =>
             (if first then [] else lit ",") ++ [dq] ++ k ++ [dq] ++ lit ":"
             ++ JSON_stringify x ++ members false rest
         end) true fields
      ++ lit "}"
  end.

(** A request in an environment without the credential. *)
Definition unconfigured (body : JsValue) : Route.NextRequest :=
  {| Route.json := Normal body; Route.OPENAI_API_KEY := None |}.

(** The failure of a capability that cannot be reached. *)
Definition connectionError : Thrown :=
  ErrorObject (lit "APIConnectionError") (lit "Connection error.").

(** A PDF upload, and readers that fail. *)
Definition scan : Page.File :=
  {| Page.name := lit "scan.pdf"; Page.type := lit "application/pdf";
     Page.bytes := lit "Firewall log, page 1" |}.

Definition notReadable : Thrown :=
  ErrorObject (lit "NotReadableError") (lit "The requested file could not be read.").

Definition File_text_failing (file : Page.File) : Completion jsstring :=
  Throw notReadable.

Definition pdfjs_failing (file : Page.File)
  : Completion (list (Completion (list Page.TextItem))) :=
  Normal [Normal [Some (Page.bytes file)]; Throw notReadable].

(** What the three uploads of [Samples] are collected to. *)
Definition collected : list Page.Attachment :=
  [ {| Page.att_name := lit "report.docx";
       Page.att_mime :=
         lit "application/vnd.openxmlformats-officedocument.wordprocessingml.document";
       Page.att_text := lit "Incident report" |};
    {| Page.att_name := lit "trace.log"; Page.att_mime := lit "text/plain";
       Page.att_text := lit "login failed" |} ].

(** A report whose only action is [Samples.oneAction]. *)
Definition smallReport : Page.Analysis :=
  {| Page.csf := {| Page.Identify := []; Page.Protect := []; Page.Detect := [];
                    Page.Respond := []; Page.Recover := [] |};
     Page.timeline := []; Page.severity := Page.High; Page.root_cause := [];
     Page.impacted_assets := []; Page.mitre := None; Page.nist_800_53 := None;
     Page.customer_safe_summary := []; Page.actions := [Samples.oneAction] |}.

(** A canvas that scales to 400 mm, a page and a half, and its document. *)
Definition tallCanvas : Page.Canvas := {| Page.width := 1800; Page.height := 4000 |}.

Definition tallPdf : Page.Pdf :=
  Eval vm_compute in
    match Page.downloadPDF 10 tallCanvas with
    | Some pdf => pdf
    | None => []
    end.

(** The page with the narrative typed in and nothing uploaded. *)
Definition typed : Home.State :=
  {| Home.ticket := Samples.narrative; Home.files := []; Home.loading := false;
     Home.analysis := JNull; Home.error := [] |}.

(** No member of the list is [x]. *)
Definition without (x : char16) (s : jsstring) : bool :=
  forallb (fun c => negb (c =? x)) s.

(** Two reports of one action each: the title of the first holds two
    double quotes around a comma; the second keeps the part before the
    comma as its title and the rest as its owner. *)
Definition reportOf (actions : list Page.Action) : Page.Analysis :=
  {| Page.csf := {| Page.Identify := []; Page.Protect := []; Page.Detect := [];
                    Page.Respond := []; Page.Recover := [] |};
     Page.timeline := []; Page.severity := Page.High; Page.root_cause := [];
     Page.impacted_assets := []; Page.mitre := None; Page.nist_800_53 := None;
     Page.customer_safe_summary := []; Page.actions := actions |}.

Definition quotedTitle : Page.Action :=
  {| Page.title := litq "x','y";
     Page.owner := None; Page.priority := None; Page.due_window := None |}.

Definition quotedOwner : Page.Action :=
  {| Page.title := lit "x";
     Page.owner := Some (litq "y','"); Page.priority := None; Page.due_window := None |}.

(** A request whose body is not JSON: [request.json()] rejects. *)
Definition notJson : Route.NextRequest :=
  {| Route.json := Throw (SyntaxError (lit "Unexpected token 'h', 'hello' is not valid JSON"));
     Route.OPENAI_API_KEY := Some (lit "sk-test") |}.

End MoreSamples.

(** * Properties *)

(** ** Strings *)

Module JSFacts.
Import JS.

Lemma eqb16_eq (s t : jsstring) : eqb16 s t = true <-> s = t.
Proof.
  revert t; induction s as [|a s IH]; intros [|b t]; simpl; split; try congruence; try reflexivity.
  - intros H. apply andb_true_iff in H as [Hab Hst].
    apply N.eqb_eq in Hab. apply IH in Hst. congruence.
  - intros H. injection H as -> ->. rewrite N.eqb_refl. simpl. now apply IH.
Qed.

Lemma firstn_min_length {A} (n : nat) (l : list A) :
  firstn (Nat.min n (List.length l)) l = firstn n l.
Proof.
  destruct (Nat.le_gt_cases n (List.length l)) as [H|H].
  - now rewrite Nat.min_l.
  - rewrite Nat.min_r by lia. rewrite firstn_all. symmetry. apply firstn_all2. lia.
Qed.

(** [s.substring(0, n)] is the first [n] code units of [s], all of [s] when
    it has no more. *)
Lemma substring_prefix (s : jsstring) (n : Z) :
  (0 <= n)%Z -> substring s 0 n = firstn (Z.to_nat n) s.
Proof.
  intros Hn. unfold substring, clamp, length16.
  replace (Z.min (Z.max 0 0) (Z.of_nat (List.length s))) with 0%Z by lia.
  replace (Z.min 0 (Z.min (Z.max n 0) (Z.of_nat (List.length s)))) with 0%Z by lia.
  replace (Z.max 0 (Z.min (Z.max n 0) (Z.of_nat (List.length s))) - 0)%Z
    with (Z.min n (Z.of_nat (List.length s))) by lia.
  change (Z.to_nat 0) with O. rewrite skipn_O.
  replace (Z.to_nat (Z.min n (Z.of_nat (List.length s))))
    with (Nat.min (Z.to_nat n) (List.length s)) by lia.
  apply firstn_min_length.
Qed.

Lemma substring_short (s : jsstring) (n : Z) :
  (length16 s <= n)%Z -> substring s 0 n = s.
Proof.
  intros H. unfold length16 in H. rewrite substring_prefix by lia.
  apply firstn_all2. lia.
Qed.

Lemma substring_long (s : jsstring) (n : Z) :
  (0 <= n < length16 s)%Z ->
  length16 (substring s 0 n) = n /\ exists rest, rest <> [] /\ s = substring s 0 n ++ rest.
Proof.
  intros H. unfold length16 in *. rewrite substring_prefix by lia. split.
  - rewrite length_firstn. lia.
  - exists (skipn (Z.to_nat n) s). split.
    + intros E. apply (f_equal (@List.length _)) in E. rewrite length_skipn in E. simpl in E. lia.
    + symmetry. apply firstn_skipn.
Qed.

Lemma surrogates_disjoint (c : char16) :
  isLowSurrogate c = true -> isHighSurrogate c = false.
Proof.
  unfold isLowSurrogate, isHighSurrogate. intros H.
  apply andb_true_iff in H as [H1 H2]. apply N.leb_le in H1.
  apply andb_false_iff. right. apply N.leb_gt. lia.
Qed.

Lemma last_cons2 {A} (a b : A) (l : list A) (d : A) : last (a :: b :: l) d = last (b :: l) d.
Proof. reflexivity. Qed.

(** A prefix of a well-formed string is well formed unless it ends with the
    first half of a pair. *)
Lemma isWellFormed_firstn (n : nat) :
  forall s, isWellFormed s = true ->
  isWellFormed (firstn n s) = negb (isHighSurrogate (last (firstn n s) 0)).
Proof.
  induction n as [n IH] using lt_wf_ind. intros s Hs.
  destruct n as [|n]; [reflexivity|].
  destruct s as [|c rest]; [reflexivity|].
  cbn [firstn]. cbn [isWellFormed] in Hs |- *.
  destruct (isHighSurrogate c) eqn:Hc.
  - destruct rest as [|d rest']; [discriminate|].
    apply andb_true_iff in Hs as [Hd Hr].
    destruct n as [|n]; cbn [firstn].
    + cbn. now rewrite Hc.
    + rewrite Hd. cbn [andb]. rewrite (IH n) by (lia || assumption).
      rewrite last_cons2.
      destruct (firstn n rest') as [|e l] eqn:E.
      * cbn. now rewrite (surrogates_disjoint _ Hd).
      * now rewrite last_cons2.
  - destruct (isLowSurrogate c) eqn:Hl; [discriminate|].
    rewrite (IH n) by (lia || assumption).
    destruct (firstn n rest) as [|e l] eqn:E.
    + cbn. now rewrite Hc.
    + now rewrite last_cons2.
Qed.

Lemma last_firstn (s : jsstring) (n : nat) :
  (n < List.length s)%nat -> last (firstn (S n) s) 0 = nth n s 0.
Proof.
  revert s; induction n as [|n IH]; intros [|c s] H; simpl in H; try lia.
  - destruct s; reflexivity.
  - cbn [firstn nth]. rewrite <- IH by lia.
    destruct s as [|d s]; [simpl in H; lia|]. cbn [firstn]. apply last_cons2.
Qed.

End JSFacts.

(** ** The two fence patterns *)

Module FenceFacts.
Import JS Route.

Lemma matchAt_chars (l : jsstring) :
  forall pos s k,
  matchAt (chars l) pos s k =
  if startsWith s l then k (pos + List.length l)%nat (skipn (List.length l) s) else None.
Proof.
  induction l as [|c l IH]; intros pos s k.
  - cbn. now rewrite Nat.add_0_r.
  - cbn [chars fold_right matchAt]. fold (chars l).
    destruct s as [|x s]; [reflexivity|].
    cbn [startsWith List.length skipn]. destruct (x =? c); [|reflexivity].
    cbn [andb]. rewrite IH. now rewrite Nat.add_succ_r.
Qed.

Lemma trimStart_head (s : jsstring) :
  match trimStart s with
  | [] => True
  | c :: _ => isWhiteSpace c = false
  end.
Proof.
  induction s as [|c s IH]; cbn; [exact I|].
  destruct (isWhiteSpace c) eqn:E; [exact IH|exact E].
Qed.

Lemma trimStart_app (ws rest : jsstring) :
  forallb isWhiteSpace ws = true -> trimStart (ws ++ rest) = trimStart rest.
Proof.
  induction ws as [|c ws IH]; cbn; [reflexivity|].
  intros H. apply andb_true_iff in H as [Hc Hws]. rewrite Hc. now apply IH.
Qed.

Lemma trimStart_stop (c : char16) (rest : jsstring) :
  isWhiteSpace c = false -> trimStart (c :: rest) = c :: rest.
Proof. intros H. cbn. now rewrite H. Qed.

Lemma forallb_rev {A} (p : A -> bool) (l : list A) : forallb p (rev l) = forallb p l.
Proof.
  induction l as [|a l IH]; [reflexivity|].
  cbn. rewrite forallb_app, IH. cbn. rewrite andb_true_r. apply andb_comm.
Qed.

(** A greedy [\s*] takes all the leading white space when what follows the
    class matches right after it. *)
Lemma starClass_greedy (k : cont) (res : jsstring) :
  forall s pos,
  (forall pos', k pos' (trimStart s) = Some res) ->
  starClass isWhiteSpace pos s k = Some res.
Proof.
  induction s as [|c s IH]; intros pos Hk; cbn in *.
  - apply Hk.
  - destruct (isWhiteSpace c) eqn:E.
    + now rewrite (IH (S pos) Hk).
    + apply Hk.
Qed.

(** [\s*$] matches exactly a run of white space that reaches the end. *)
Lemma starClass_eol (s : jsstring) :
  forall pos,
  starClass isWhiteSpace pos s (fun pos' s' => matchAt Eol pos' s' done) =
  if forallb isWhiteSpace s then Some [] else None.
Proof.
  induction s as [|c s IH]; intros pos; cbn; [reflexivity|].
  destruct (isWhiteSpace c); cbn; [|reflexivity].
  rewrite IH. now destruct (forallb isWhiteSpace s).
Qed.

(** What the opening pattern does: a text that starts with the tag loses
    it and the white space after it; any other text is left as it is. *)
Lemma search_fenceOpen_later (s : jsstring) :
  forall pos before, pos <> O -> search fenceOpen pos before s = None.
Proof.
  induction s as [|c s IH]; intros pos before Hpos; cbn;
    destruct pos; try congruence; cbn; [reflexivity|].
  now apply IH.
Qed.

Lemma nl_isWhiteSpace (c : char16) : isWhiteSpace c = false -> (c =? nl) = false.
Proof.
  intros H. destruct (c =? nl) eqn:E; [|reflexivity].
  apply N.eqb_eq in E. subst c. discriminate.
Qed.

Lemma replace_fenceOpen (s : jsstring) :
  replace fenceOpen [] s =
  if startsWith s (lit "```json") then trimStart (skipn 7 s) else s.
Proof.
  unfold replace.
  assert (H : matchAt fenceOpen 0 s done =
              if startsWith s (lit "```json") then Some (trimStart (skipn 7 s)) else None).
  { unfold fenceOpen. cbn [matchAt Nat.eqb]. rewrite matchAt_chars.
    destruct (startsWith s (lit "```json")); [|reflexivity].
    change (List.length (lit "```json")) with 7%nat.
    apply starClass_greedy. intros pos'. cbn [matchAt].
    pose proof (trimStart_head (skipn 7 s)) as Hh.
    destruct (trimStart (skipn 7 s)) as [|c r]; [reflexivity|].
    now rewrite (nl_isWhiteSpace _ Hh). }
  destruct s as [|c s].
  - cbn. reflexivity.
  - cbn [search]. rewrite H.
    destruct (startsWith (c :: s) (lit "```json")); [reflexivity|].
    now rewrite search_fenceOpen_later.
Qed.

Lemma matchAt_opt_chr (c : char16) (r : regex) (pos : nat) (s : jsstring) (k : cont) :
  matchAt (Seq (Opt (Chr c)) r) pos s k =
  match
    match s with
    | x :: s' => if x =? c then matchAt r (S pos) s' k else None
    | [] => None
    end
  with
  | Some res => Some res
  | None => matchAt r pos s k
  end.
Proof. reflexivity. Qed.

(** The closing pattern matches, at a given place, exactly a text made of
    an optional line feed, three back-ticks and white space up to the end. *)
Lemma matchAt_fenceTail (s : jsstring) (pos : nat) :
  matchAt (Seq (chars (lit "```")) (Seq (StarClass isWhiteSpace) Eol)) pos s done =
  if closesHere s then Some [] else None.
Proof.
  change (matchAt (chars (lit "```")) pos s
            (fun pos' s' => starClass isWhiteSpace pos' s'
               (fun pos'' s'' => matchAt Eol pos'' s'' done)) =
          if closesHere s then Some [] else None).
  rewrite matchAt_chars. unfold closesHere.
  destruct (startsWith s (lit "```")); [|reflexivity].
  change (List.length (lit "```")) with 3%nat. cbn [andb].
  apply starClass_eol.
Qed.

Lemma matchAt_fenceClose (s : jsstring) (pos : nat) :
  matchAt fenceClose pos s done =
  if closesHere (match s with c :: s' => if c =? nl then s' else s | [] => s end)
  then Some [] else None.
Proof.
  unfold fenceClose. rewrite matchAt_opt_chr, !matchAt_fenceTail.
  destruct s as [|c s]; [reflexivity|].
  destruct (c =? nl) eqn:E; [|reflexivity].
  rewrite matchAt_fenceTail.
  destruct (closesHere s); [reflexivity|].
  apply N.eqb_eq in E. subst c. reflexivity.
Qed.

(** Before a closing fence that ends the text, no earlier place matches:
    the last back-tick of the text is not white space. *)
Lemma closesHere_inv (t : jsstring) :
  closesHere t = true ->
  exists w, forallb isWhiteSpace w = true /\ t = lit "```" ++ w.
Proof.
  unfold closesHere. intros H. apply andb_true_iff in H as [H1 H2].
  exists (skipn 3 t). split; [exact H2|].
  destruct t as [|a [|b [|c t]]]; cbn in H1;
    repeat match type of H1 with
           | context [?x =? 96] => destruct (x =? 96) eqn:?; cbn in H1
           end; try discriminate.
  repeat match goal with
         | E : (_ =? _) = true |- _ => apply N.eqb_eq in E; subst
         end.
  reflexivity.
Qed.

Lemma trimStart_rev_fence (q w : jsstring) :
  forallb isWhiteSpace w = true ->
  trimStart (rev (q ++ lit "```" ++ w)) = lit "```" ++ rev q.
Proof.
  intros Hw. rewrite !rev_app_distr, <- app_assoc.
  rewrite trimStart_app by now rewrite forallb_rev.
  reflexivity.
Qed.

Lemma closesHere_before_fence (a : char16) (q w : jsstring) :
  forallb isWhiteSpace w = true ->
  closesHere ((a :: q) ++ nl :: lit "```" ++ w) = false.
Proof.
  intros Hw. destruct (closesHere _) eqn:E; [|reflexivity]. exfalso.
  apply closesHere_inv in E as (w0 & Hw0 & E).
  assert (L : trimStart (rev ((a :: q) ++ nl :: lit "```" ++ w))
              = lit "```" ++ rev ((a :: q) ++ [nl])).
  { rewrite <- (trimStart_rev_fence ((a :: q) ++ [nl]) w Hw). now rewrite <- app_assoc. }
  assert (R : trimStart (rev (lit "```" ++ w0)) = lit "```").
  { apply (trimStart_rev_fence [] w0 Hw0). }
  rewrite E, R in L.
  apply (f_equal (@List.length _)) in L.
  rewrite length_app, length_rev, length_app in L. cbn in L. lia.
Qed.

Lemma search_fenceClose (w : jsstring) :
  forallb isWhiteSpace w = true ->
  forall q pos before,
  search fenceClose pos before (q ++ nl :: lit "```" ++ w) = Some (rev before ++ q, []).
Proof.
  intros Hw. induction q as [|a q IH]; intros pos before.
  - cbn [app search]. rewrite matchAt_fenceClose. rewrite N.eqb_refl.
    unfold closesHere. cbn [lit app]. cbn. rewrite Hw. now rewrite app_nil_r.
  - change ((a :: q) ++ nl :: lit "```" ++ w) with (a :: (q ++ nl :: lit "```" ++ w)) at 1.
    cbn [search]. rewrite matchAt_fenceClose.
    assert (E : closesHere (if a =? nl then q ++ nl :: lit "```" ++ w
                            else a :: q ++ nl :: lit "```" ++ w) = false).
    { destruct (a =? nl).
      - destruct q as [|b q].
        + unfold closesHere. reflexivity.
        + now apply closesHere_before_fence.
      - now apply (closesHere_before_fence a q w). }
    rewrite E. rewrite IH. cbn [rev]. now rewrite <- app_assoc.
Qed.

Lemma replace_fenceClose (q w : jsstring) :
  forallb isWhiteSpace w = true ->
  replace fenceClose [] (q ++ nl :: lit "```" ++ w) = q.
Proof.
  intros Hw. unfold replace. rewrite search_fenceClose by assumption.
  cbn. now rewrite app_nil_r.
Qed.

(** A text opened with the tag and closed with a fence on a line of its
    own is stripped to what stands between them. *)
Lemma stripFence_fenced (ws w q : jsstring) (c : char16) :
  forallb isWhiteSpace ws = true ->
  forallb isWhiteSpace w = true ->
  isWhiteSpace c = false ->
  stripFence (lit "```json" ++ ws ++ (c :: q) ++ nl :: lit "```" ++ w) = c :: q.
Proof.
  intros Hws Hw Hc. unfold stripFence. rewrite replace_fenceOpen.
  change (startsWith (lit "```json" ++ ws ++ (c :: q) ++ nl :: lit "```" ++ w) (lit "```json"))
    with (startsWith (ws ++ (c :: q) ++ nl :: lit "```" ++ w) []).
  cbn [startsWith].
  change (skipn 7 (lit "```json" ++ ws ++ (c :: q) ++ nl :: lit "```" ++ w))
    with (ws ++ (c :: q) ++ nl :: lit "```" ++ w).
  rewrite trimStart_app by assumption.
  change ((c :: q) ++ nl :: lit "```" ++ w) with (c :: (q ++ nl :: lit "```" ++ w)).
  rewrite trimStart_stop by assumption.
  now apply (replace_fenceClose (c :: q)).
Qed.

(** The closing fence need not stand on a line of its own: the line feed
    of the pattern is optional.  After any text that is not empty, a fence
    that ends the whole text does not start earlier. *)
Lemma closesHere_after_text (a : char16) (q w : jsstring) :
  forallb isWhiteSpace w = true ->
  closesHere ((a :: q) ++ lit "```" ++ w) = false.
Proof.
  intros Hw. destruct (closesHere _) eqn:E; [|reflexivity]. exfalso.
  apply closesHere_inv in E as (w0 & Hw0 & E).
  pose proof (trimStart_rev_fence (a :: q) w Hw) as L.
  assert (R : trimStart (rev (lit "```" ++ w0)) = lit "```").
  { apply (trimStart_rev_fence [] w0 Hw0). }
  rewrite E, R in L.
  apply (f_equal (@List.length _)) in L.
  rewrite length_app, length_rev in L. cbn in L. lia.
Qed.

Lemma search_fenceClose_bare (w : jsstring) :
  forallb isWhiteSpace w = true ->
  forall q pos before,
  (forall q', q <> q' ++ [nl]) ->
  search fenceClose pos before (q ++ lit "```" ++ w) = Some (rev before ++ q, []).
Proof.
  intros Hw. induction q as [|a q IH]; intros pos before Hq.
  - cbn [app]. change (lit "```" ++ w) with (96 :: 96 :: 96 :: w).
    cbn [search]. rewrite matchAt_fenceClose.
    change (96 =? nl) with false. unfold closesHere. cbn. rewrite Hw.
    now rewrite app_nil_r.
  - change ((a :: q) ++ lit "```" ++ w) with (a :: (q ++ lit "```" ++ w)) at 1.
    cbn [search]. rewrite matchAt_fenceClose.
    assert (E : closesHere (if a =? nl then q ++ lit "```" ++ w
                            else a :: q ++ lit "```" ++ w) = false).
    { destruct (a =? nl) eqn:Ea.
      - destruct q as [|b q].
        + apply N.eqb_eq in Ea. subst a. now elim (Hq []).
        + now apply closesHere_after_text.
      - now apply (closesHere_after_text a q w). }
    rewrite E. rewrite IH.
    + cbn [rev]. now rewrite <- app_assoc.
    + intros q' Hq'. apply (Hq (a :: q')). now rewrite Hq'.
Qed.

Lemma replace_fenceClose_bare (q w : jsstring) :
  forallb isWhiteSpace w = true ->
  (forall q', q <> q' ++ [nl]) ->
  replace fenceClose [] (q ++ lit "```" ++ w) = q.
Proof.
  intros Hw Hq. unfold replace. rewrite search_fenceClose_bare by assumption.
  cbn. now rewrite app_nil_r.
Qed.

Lemma stripFence_fenced_bare (ws w q : jsstring) (c : char16) :
  forallb isWhiteSpace ws = true ->
  forallb isWhiteSpace w = true ->
  isWhiteSpace c = false ->
  (forall q', c :: q <> q' ++ [nl]) ->
  stripFence (lit "```json" ++ ws ++ (c :: q) ++ lit "```" ++ w) = c :: q.
Proof.
  intros Hws Hw Hc Hq. unfold stripFence. rewrite replace_fenceOpen.
  change (startsWith (lit "```json" ++ ws ++ (c :: q) ++ lit "```" ++ w) (lit "```json"))
    with (startsWith (ws ++ (c :: q) ++ lit "```" ++ w) []).
  cbn [startsWith].
  change (skipn 7 (lit "```json" ++ ws ++ (c :: q) ++ lit "```" ++ w))
    with (ws ++ (c :: q) ++ lit "```" ++ w).
  rewrite trimStart_app by assumption.
  change ((c :: q) ++ lit "```" ++ w) with (c :: (q ++ lit "```" ++ w)).
  rewrite trimStart_stop by assumption.
  now apply (replace_fenceClose_bare (c :: q)).
Qed.

(** A text that does not start with the tag still does not once a line
    feed and more text follow it: no character of the tag is a line feed. *)
Lemma startsWith_line (tag : jsstring) :
  ~ In nl tag ->
  forall q rest,
  startsWith q tag = false -> startsWith (q ++ nl :: rest) tag = false.
Proof.
  induction tag as [|t tag IH]; intros Hnl q rest H.
  - destruct q; discriminate.
  - destruct q as [|a q].
    + cbn [app startsWith]. destruct (nl =? t) eqn:E; [|reflexivity].
      apply N.eqb_eq in E. elim Hnl. now left.
    + cbn [app startsWith] in *. destruct (a =? t); [|reflexivity].
      cbn [andb] in *. apply IH; [|exact H].
      intros Hin. apply Hnl. now right.
Qed.

(** A text without the opening tag loses its closing fence only. *)
Lemma stripFence_untagged (text w : jsstring) :
  startsWith text (lit "```json") = false ->
  forallb isWhiteSpace w = true ->
  stripFence (text ++ nl :: lit "```" ++ w) = text.
Proof.
  intros Htag Hw. unfold stripFence. rewrite replace_fenceOpen.
  rewrite (startsWith_line (lit "```json")); [..|exact Htag].
  - now apply replace_fenceClose.
  - cbn. intros H. repeat destruct H as [H|H]; try discriminate H. exact H.
Qed.

End FenceFacts.

(** ** The analysis route *)

Module RouteFacts.
Import JS Route JSFacts FenceFacts.

Section Handler.

Variable Number_toString : float -> jsstring.
Variable JSON_parse : jsstring -> Completion JsValue.
Variable create : list ChatRequest -> ChatRequest -> Completion ChatCompletion.

(** A run of the handler from the initial world: its response and the
    world it leaves. *)
Local Notation "'run' request" := (POST Number_toString JSON_parse create request initial)
  (at level 10, request at level 9).

Lemma typeof_not_string (v : JsValue) :
  (forall t, v <> JString t) -> eqb16 (typeof v) (lit "string") = false.
Proof.
  intros H. destruct v as [| |b|x|s|l|fs]; try reflexivity. now elim (H s).
Qed.

Lemma destructure_Get (body ticket : JsValue) :
  Get body (lit "ticket") = Normal ticket ->
  exists attachments, destructure body = Normal (ticket, attachments).
Proof.
  intros H. destruct body as [| |b|x|s|l|fs]; try discriminate;
    unfold destructure; rewrite H; cbn [cbind];
    try (eexists; reflexivity).
  cbn [Get]. destruct (ownProperty (lit "attachments") fs); eexists; reflexivity.
Qed.

(** A body that is [null] has no property to read: the destructuring
    throws a TypeError, and the outer handler answers with status 500 and
    the message of that error. *)
Lemma POST_null_run (request : NextRequest) :
  json request = Normal JNull ->
  exists e,
    run request =
    (Normal {| status := 500; body := JObject [(lit "error", JString (errorMessage e))] |},
     {| calls := []; console := [ConsoleError (lit "Analysis error:") (Some e)] |}).
Proof.
  intros Hjson. eexists. unfold POST, try_catch, bind at 1 2 3, lift.
  rewrite Hjson. reflexivity.
Qed.

(** C2, as amended.  When the body of the request decodes to a value a
    property can be read from, a ticket that is missing or is not a string
    is answered with status 400 and the message 'Invalid ticket
    description', a ticket longer than 10,000 characters with status 400
    and the message 'Ticket description too long', and the world is left as
    it was: no call to the extraction capability has been issued.  When
    the body is [null], or the request does not decode as JSON, there is no
    ticket to read: the run answers with status 500, not 400, carrying the
    message of the error thrown, and again no call has been issued. *)
Theorem POST_rejects_invalid_ticket (request : NextRequest) :
  let answer := fun (code : Z) (message : jsstring) =>
    {| status := code; body := JObject [(lit "error", JString message)] |} in
  (forall body ticket,
     json request = Normal body ->
     Get body (lit "ticket") = Normal ticket ->
     ticket = JUndefined \/ (forall t, ticket <> JString t) ->
     run request = (Normal (answer 400%Z (lit "Invalid ticket description")), initial))
  /\ (forall body t,
        json request = Normal body ->
        Get body (lit "ticket") = Normal (JString t) ->
        (10000 < length16 t)%Z ->
        run request = (Normal (answer 400%Z (lit "Ticket description too long")), initial))
  /\ (json request = Normal JNull ->
      exists message,
        fst (run request) = Normal (answer 500%Z message)
        /\ calls (snd (run request)) = [])
  /\ (forall name message,
        json request = Throw (ErrorObject name message) ->
        fst (run request) = Normal (answer 500%Z message)
        /\ calls (snd (run request)) = []).
Proof.
  intros answer. split; [|split; [|split]].
  - intros body ticket Hjson Hget Hticket.
    destruct (destructure_Get body ticket Hget) as (attachments & Hd).
    unfold POST, try_catch, bind at 1 2 3, lift. rewrite Hjson, Hd. cbn [fst snd].
    destruct Hticket as [-> | Hv]; [reflexivity|].
    rewrite (typeof_not_string ticket Hv). cbn [negb]. now rewrite orb_true_r.
  - intros body t Hjson Hget Ht.
    destruct (destructure_Get body _ Hget) as (attachments & Hd).
    unfold POST, try_catch, bind at 1 2 3, lift. rewrite Hjson, Hd. cbn [fst snd].
    destruct t as [|c t]; [cbn in Ht; lia|].
    cbn [truthy negb orb typeof stringValue].
    change (eqb16 (lit "string") (lit "string")) with true. cbn [negb orb].
    destruct (length16 (c :: t) >? 10000)%Z eqn:E; [reflexivity|lia].
  - intros Hjson. destruct (POST_null_run request Hjson) as (e & R).
    exists (errorMessage e). rewrite R. split; reflexivity.
  - intros name message Hjson.
    unfold POST, try_catch, bind at 1 2 3, lift. rewrite Hjson. split; reflexivity.
Qed.

(** An empty ticket is turned away the same way. *)
Lemma POST_rejects_empty_ticket (request : NextRequest) (body : JsValue) :
  json request = Normal body ->
  Get body (lit "ticket") = Normal (JString []) ->
  run request =
  (Normal (NextResponse_json (error_body (lit "Invalid ticket description")) 400), initial).
Proof.
  intros Hjson Hget.
  destruct (destructure_Get body _ Hget) as (attachments & Hd).
  unfold POST, try_catch, bind at 1 2 3, lift. now rewrite Hjson, Hd.
Qed.

(** A body that is [null] has no property to read: the destructuring
    throws, and the outer handler answers with status 500. *)
Lemma POST_null_body (request : NextRequest) :
  json request = Normal JNull ->
  exists message,
    fst (run request) = Normal (NextResponse_json (error_body message) 500)
    /\ calls (snd (run request)) = [].
Proof.
  intros Hjson. eexists. unfold POST, try_catch, bind at 1 2 3, lift.
  rewrite Hjson. split; reflexivity.
Qed.

(** Up to the first call: a valid, configured request whose prompt can be
    built issues the primary call and goes on with its answer. *)
Lemma POST_reaches_call (request : NextRequest) fields ticket userPrompt :
  json request = Normal (JObject fields) ->
  validTicket fields ticket ->
  buildUserPrompt Number_toString ticket (attachmentsOf fields) = Normal userPrompt ->
  configured request ->
  run request =
  try_catch
    (bind (call create (primaryRequest userPrompt)) (fun resp =>
     bind (parseOrFix JSON_parse create (stripFence (contentOf resp))) (fun analysis =>
     ret (NextResponse_json (analysis_body analysis) 200))))
    (fun error =>
       bind (console_error (lit "Analysis error:") (Some error)) (fun _ =>
       ret (NextResponse_json (error_body (errorMessage error)) 500)))
    initial.
Proof.
  intros Hjson (Hticket & Hne & Hlen) Hprompt (c & key & Hkey).
  unfold POST, try_catch, bind at 1 2 3, lift. rewrite Hjson.
  unfold destructure, Get, attachmentsOf in *. rewrite Hticket.
  destruct ticket as [|t0 ticket]; [congruence|].
  destruct (ownProperty (lit "attachments") fields) as [atts|]; cbn [cbind fst snd];
    cbn [truthy negb orb typeof stringValue];
    change (eqb16 (lit "string") (lit "string")) with true; cbn [negb orb];
    (destruct (length16 (t0 :: ticket) >? 10000)%Z eqn:E; [lia|]);
    rewrite Hprompt, Hkey; reflexivity.
Qed.

Lemma parseOrFix_parsed (cleaned : jsstring) (v : JsValue) (w : World) :
  JSON_parse cleaned = Normal v ->
  parseOrFix JSON_parse create cleaned w = (Normal v, w).
Proof. intros H. unfold parseOrFix, try_catch, lift. now rewrite H. Qed.

Lemma parseOrFix_repair (cleaned : jsstring) (e : Thrown) (w : World) :
  JSON_parse cleaned = Throw e ->
  parseOrFix JSON_parse create cleaned w =
  (cbind (create (calls w) (fixRequest cleaned))
     (fun fixResp => JSON_parse (stripFence (contentOf fixResp))),
   {| calls := calls w ++ [fixRequest cleaned];
      console := console w ++ [ConsoleLog (lit "Initial parse failed, attempting fix...")] |}).
Proof.
  intros H. unfold parseOrFix, try_catch, lift. rewrite H.
  unfold bind, console_log, call. cbn [calls console].
  destruct (create (calls w) (fixRequest cleaned)); reflexivity.
Qed.

(** C3: when the primary response, once its code fence is stripped,
    parses, the run answers with status 200 and the object whose one
    property, [analysis], is the parsed value itself, and the only call it
    has issued is the primary one: the repair call is never made. *)
Theorem POST_parsed_without_repair (request : NextRequest) fields ticket userPrompt resp v :
  json request = Normal (JObject fields) ->
  validTicket fields ticket ->
  buildUserPrompt Number_toString ticket (attachmentsOf fields) = Normal userPrompt ->
  configured request ->
  create [] (primaryRequest userPrompt) = Normal resp ->
  JSON_parse (stripFence (contentOf resp)) = Normal v ->
  run request =
  (Normal {| status := 200; body := JObject [(lit "analysis", v)] |},
   {| calls := [primaryRequest userPrompt]; console := [] |}).
Proof.
  intros Hjson Hticket Hprompt Hkey Hresp Hparse.
  rewrite (POST_reaches_call request fields ticket userPrompt Hjson Hticket Hprompt Hkey).
  unfold try_catch, bind at 1, call. cbn [calls console initial app].
  rewrite Hresp. unfold bind at 1. rewrite (parseOrFix_parsed _ _ _ Hparse).
  reflexivity.
Qed.

(** The whole run when the primary answer does not parse. *)
Lemma POST_repair_run (request : NextRequest) fields ticket userPrompt resp e :
  json request = Normal (JObject fields) ->
  validTicket fields ticket ->
  buildUserPrompt Number_toString ticket (attachmentsOf fields) = Normal userPrompt ->
  configured request ->
  create [] (primaryRequest userPrompt) = Normal resp ->
  JSON_parse (stripFence (contentOf resp)) = Throw e ->
  let cleaned := stripFence (contentOf resp) in
  let said := [ConsoleLog (lit "Initial parse failed, attempting fix...")] in
  run request =
  match cbind (create [primaryRequest userPrompt] (fixRequest cleaned))
          (fun fixResp => JSON_parse (stripFence (contentOf fixResp))) with
  | Normal v =>
      (Normal (NextResponse_json (analysis_body v) 200),
       {| calls := [primaryRequest userPrompt; fixRequest cleaned]; console := said |})
  | Throw e' =>
      (Normal (NextResponse_json (error_body (errorMessage e')) 500),
       {| calls := [primaryRequest userPrompt; fixRequest cleaned];
          console := said ++ [ConsoleError (lit "Analysis error:") (Some e')] |})
  end.
Proof.
  intros Hjson Hticket Hprompt Hkey Hresp Hparse cleaned said.
  rewrite (POST_reaches_call request fields ticket userPrompt Hjson Hticket Hprompt Hkey).
  unfold try_catch, bind at 1, call. cbn [calls console initial app].
  rewrite Hresp. unfold bind at 1. rewrite (parseOrFix_repair _ _ _ Hparse).
  cbn [calls console app]. fold cleaned.
  destruct (cbind _ _); reflexivity.
Qed.

(** C1: when the primary response does not parse, the run issues exactly
    two calls, both through the same capability: the primary one and one
    repair call, at temperature 0.1, whose system message is 'Fix
    malformed JSON. Output ONLY valid JSON.' and whose user message is the
    cleaned, unparseable text after the words 'Fix this JSON:'.  The
    repair response is stripped by the same [stripFence]; if it parses,
    the run answers 200 with that value as the analysis; if it does not,
    the run answers 500 and the error of the response is the message of
    that second parse error itself.  Whatever the repair call does, there
    is no third call. *)
Theorem POST_repairs_once (request : NextRequest) fields ticket userPrompt resp e :
  json request = Normal (JObject fields) ->
  validTicket fields ticket ->
  buildUserPrompt Number_toString ticket (attachmentsOf fields) = Normal userPrompt ->
  configured request ->
  create [] (primaryRequest userPrompt) = Normal resp ->
  JSON_parse (stripFence (contentOf resp)) = Throw e ->
  let cleaned := stripFence (contentOf resp) in
  let primaryCall :=
    {| model := lit "gpt-4o-mini"; temperature := 0.2%float;
       messages := [ {| role := lit "system"; content := SYSTEM_PROMPT |};
                     {| role := lit "user"; content := userPrompt |} ] |} in
  let repairCall :=
    {| model := lit "gpt-4o-mini"; temperature := 0.1%float;
       messages := [ {| role := lit "system";
                        content := lit "Fix malformed JSON. Output ONLY valid JSON." |};
                     {| role := lit "user";
                        content := lit "Fix this JSON:" ++ [nl] ++ cleaned |} ] |} in
  let repair := create [primaryCall] repairCall in
  calls (snd (run request)) = [primaryCall; repairCall]
  /\ (forall fixResp v,
        repair = Normal fixResp ->
        JSON_parse (stripFence (contentOf fixResp)) = Normal v ->
        fst (run request) =
        Normal {| status := 200; body := JObject [(lit "analysis", v)] |})
  /\ (forall fixResp name message,
        repair = Normal fixResp ->
        JSON_parse (stripFence (contentOf fixResp)) = Throw (ErrorObject name message) ->
        fst (run request) =
        Normal {| status := 500; body := JObject [(lit "error", JString message)] |})
  /\ (forall fixResp thrown,
        repair = Normal fixResp ->
        JSON_parse (stripFence (contentOf fixResp)) = Throw (ThrownValue thrown) ->
        fst (run request) =
        Normal {| status := 500;
                  body := JObject [(lit "error", JString (lit "Analysis failed"))] |}).
Proof.
  intros Hjson Hticket Hprompt Hkey Hresp Hparse cleaned primaryCall repairCall repair.
  rewrite (POST_repair_run request fields ticket userPrompt resp e
             Hjson Hticket Hprompt Hkey Hresp Hparse).
  fold cleaned.
  change (primaryRequest userPrompt) with primaryCall.
  change (fixRequest cleaned) with repairCall.
  fold repair.
  split; [|split; [|split]].
  - destruct (cbind repair _); reflexivity.
  - intros fixResp v Hfix Hv. rewrite Hfix. cbn [cbind]. now rewrite Hv.
  - intros fixResp name message Hfix He'. rewrite Hfix. cbn [cbind]. now rewrite He'.
  - intros fixResp thrown Hfix He'. rewrite Hfix. cbn [cbind]. now rewrite He'.
Qed.

(** An attachment whose text cannot be cut stops the loop with a throw. *)
Lemma appendAttachments_throws (att : JsValue) (attachments : list JsValue) :
  In att attachments ->
  (forall s, Get att (lit "text") <> Normal (JString s)) ->
  forall userPrompt, exists e,
    appendAttachments Number_toString userPrompt attachments = Throw e.
Proof.
  intros Hin Hbad. induction attachments as [|a rest IH]; [contradiction|].
  intros userPrompt. cbn [appendAttachments].
  destruct (Get a (lit "text")) as [text|e] eqn:Ht; cbn [cbind]; [|now exists e].
  destruct (text_substring text) as [cut|e] eqn:Hc; cbn [cbind]; [|now exists e].
  destruct (Get a (lit "name")) as [name|e]; cbn [cbind]; [|now exists e].
  destruct (ToString Number_toString name) as [name'|e]; cbn [cbind]; [|now exists e].
  destruct (Get a (lit "mime")) as [mime|e]; cbn [cbind]; [|now exists e].
  destruct (ToString Number_toString mime) as [mime'|e]; cbn [cbind]; [|now exists e].
  destruct Hin as [<- | Hin].
  - destruct text as [| |b|x|s|l|fs]; try discriminate. now elim (Hbad s).
  - now apply IH.
Qed.


(** What the route reads from the attachments the page has built. *)
Lemma appendAttachments_built (attachments : list Page.Attachment) :
  forall userPrompt,
  appendAttachments Number_toString userPrompt (map Page.attachmentValue attachments) =
  Normal (userPrompt ++
          flat_map (fun a =>
                      lit "ATTACHMENT: " ++ Page.att_name a ++ lit " (" ++ Page.att_mime a
                      ++ lit ")" ++ [nl]
                      ++ firstn (Z.to_nat 6000) (Page.att_text a) ++ [nl; nl])
            attachments).
Proof.
  induction attachments as [|a rest IH]; intros userPrompt.
  - cbn. now rewrite app_nil_r.
  - cbn [map appendAttachments].
    change (Get (Page.attachmentValue a) (lit "text")) with (Normal (JString (Page.att_text a))).
    change (Get (Page.attachmentValue a) (lit "name")) with (Normal (JString (Page.att_name a))).
    change (Get (Page.attachmentValue a) (lit "mime")) with (Normal (JString (Page.att_mime a))).
    cbn [cbind text_substring ToString].
    rewrite IH, substring_prefix by lia. cbn [flat_map].
    repeat rewrite <- app_assoc. reflexivity.
Qed.

(** C5: the prompt is the ticket followed by one fragment per attachment,
    in order, and the text of each fragment is the first 6,000 code units
    of that attachment's own text: all of it when it has 6,000 or fewer,
    and exactly 6,000, a proper prefix, when it has more. *)
Theorem prompt_caps_each_attachment (ticket : jsstring) (attachments : list Page.Attachment) :
  let included := fun text : jsstring => firstn (Z.to_nat 6000) text in
  buildUserPrompt Number_toString ticket (JArray (map Page.attachmentValue attachments)) =
  Normal (lit "TICKET:" ++ [nl] ++ ticket ++ [nl; nl] ++
          flat_map (fun a =>
                      lit "ATTACHMENT: " ++ Page.att_name a ++ lit " (" ++ Page.att_mime a
                      ++ lit ")" ++ [nl] ++ included (Page.att_text a) ++ [nl; nl])
            attachments)
  /\ (forall text, (length16 text <= 6000)%Z -> included text = text)
  /\ (forall text, (6000 < length16 text)%Z ->
        length16 (included text) = 6000%Z
        /\ exists rest, rest <> [] /\ text = included text ++ rest).
Proof.
  intros included. split; [|split].
  - unfold buildUserPrompt. cbn [truthy isArray andb elements].
    rewrite appendAttachments_built. unfold included.
    repeat rewrite <- app_assoc. reflexivity.
  - intros text H. unfold included. rewrite <- (substring_prefix text 6000) by lia.
    now apply substring_short.
  - intros text H. unfold included. rewrite <- (substring_prefix text 6000) by lia.
    apply substring_long. lia.
Qed.

(** C6, as amended: the cut is by code units.  For a well-formed text the
    included text is well formed except when the text is longer than
    6,000 code units and the code unit at index 5,999 is the first half of
    a surrogate pair: the cut then falls inside the pair. *)
Theorem truncation_wellFormed (text cut : jsstring) :
  isWellFormed text = true ->
  text_substring (JString text) = Normal cut ->
  isWellFormed cut =
  negb ((6000 <? length16 text)%Z && isHighSurrogate (nth (Z.to_nat 5999) text 0)).
Proof.
  intros Hwf Hcut. cbn [text_substring] in Hcut. injection Hcut as <-.
  destruct (6000 <? length16 text)%Z eqn:E; cbn [andb].
  - apply Z.ltb_lt in E. rewrite substring_prefix by lia.
    rewrite isWellFormed_firstn by assumption.
    replace (Z.to_nat 6000) with (S (Z.to_nat 5999)) by lia.
    rewrite last_firstn; [reflexivity|]. unfold length16 in E. lia.
  - apply Z.ltb_ge in E. now rewrite substring_short.
Qed.

(** C4, as amended.  A response that opens with the tag [```json], white
    space, then a payload that starts with a character other than white
    space, and closes with a line feed, three back-ticks and white space,
    is stripped to the payload exactly; so is one whose three closing
    back-ticks follow the payload directly, when the payload does not end
    with a line feed.  A response that does not start with the tag
    [```json] and closes with a line feed, three back-ticks and white space
    loses that closing fence only: what stands before it, an opening line
    of three back-ticks included, is kept.  The stripped text is the text
    parsed: when the payload of a response fenced with the tag parses, the
    run answers 200 with the value parsed from the payload, after the one
    primary call. *)
Theorem stripFence_json_fence :
  (forall (ws w payload : jsstring) (c : char16),
     forallb isWhiteSpace ws = true ->
     forallb isWhiteSpace w = true ->
     isWhiteSpace c = false ->
     stripFence (lit "```json" ++ ws ++ (c :: payload) ++ [nl] ++ lit "```" ++ w)
     = c :: payload)
  /\ (forall (ws w payload : jsstring) (c : char16),
        forallb isWhiteSpace ws = true ->
        forallb isWhiteSpace w = true ->
        isWhiteSpace c = false ->
        (forall q, c :: payload <> q ++ [nl]) ->
        stripFence (lit "```json" ++ ws ++ (c :: payload) ++ lit "```" ++ w)
        = c :: payload)
  /\ (forall text w : jsstring,
        startsWith text (lit "```json") = false ->
        forallb isWhiteSpace w = true ->
        stripFence (text ++ [nl] ++ lit "```" ++ w) = text)
  /\ (forall (request : NextRequest) fields ticket userPrompt resp
             (ws w payload : jsstring) (c : char16) (v : JsValue),
        json request = Normal (JObject fields) ->
        validTicket fields ticket ->
        buildUserPrompt Number_toString ticket (attachmentsOf fields) = Normal userPrompt ->
        configured request ->
        create [] (primaryRequest userPrompt) = Normal resp ->
        contentOf resp = lit "```json" ++ ws ++ (c :: payload) ++ [nl] ++ lit "```" ++ w ->
        forallb isWhiteSpace ws = true ->
        forallb isWhiteSpace w = true ->
        isWhiteSpace c = false ->
        JSON_parse (c :: payload) = Normal v ->
        run request =
        (Normal {| status := 200; body := JObject [(lit "analysis", v)] |},
         {| calls := [primaryRequest userPrompt]; console := [] |})).
Proof.
  split; [|split; [|split]].
  - intros ws w payload c Hws Hw Hc. now apply stripFence_fenced.
  - intros ws w payload c Hws Hw Hc Hq. now apply stripFence_fenced_bare.
  - intros text w Htag Hw. now apply stripFence_untagged.
  - intros request fields ticket userPrompt resp ws w payload c v
      Hjson Hticket Hprompt Hkey Hresp Hcontent Hws Hw Hc Hparse.
    rewrite (POST_reaches_call request fields ticket userPrompt Hjson Hticket Hprompt Hkey).
    unfold try_catch, bind at 1, call. cbn [calls console initial app].
    rewrite Hresp. unfold bind at 1. rewrite Hcontent.
    assert (S : stripFence (lit "```json" ++ ws ++ (c :: payload) ++ [nl] ++ lit "```" ++ w)
                = c :: payload) by now apply stripFence_fenced.
    rewrite S, (parseOrFix_parsed _ _ _ Hparse).
    reflexivity.
Qed.

End Handler.

End RouteFacts.

(** ** The page *)

Module PageFacts.
Import JS Page JSFacts.

(** *** The delimited-text export *)

Lemma orEmpty_default (x : option jsstring) :
  orEmpty x = match x with Some s => s | None => [] end.
Proof. now destruct x as [[|c s]|]. Qed.

Lemma join_lines (first : jsstring) (rest : list jsstring) :
  join [nl] (first :: rest) = first ++ flat_map (fun line => [nl] ++ line) rest.
Proof.
  revert first. induction rest as [|line rest IH]; intros first.
  - cbn. now rewrite app_nil_r.
  - change (join [nl] (first :: line :: rest)) with (first ++ [nl] ++ join [nl] (line :: rest)).
    rewrite IH. cbn [flat_map]. now rewrite <- !app_assoc.
Qed.

Lemma flat_map_rows {A B C} (f : B -> list C) (g : A -> B) (l : list A) :
  flat_map f (map g l) = flat_map (fun a => f (g a)) l.
Proof. induction l as [|a l IH]; cbn; [reflexivity|now rewrite IH]. Qed.

(** C8, as amended: the export is the header row [Title, Owner, Priority,
    Due Window] followed, after a line feed each, by one row per action,
    in the order of the actions.  Every field of every row stands between
    two double quotes of its own with its characters as they are: nothing
    is escaped, a double quote inside a field included.  The priority is
    the word P1, P2 or P3; an absent owner, priority or due window is the
    empty field, never the word 'undefined'.  A report without actions
    exports the header row alone. *)
Theorem downloadCSV_rows (analysis : Analysis) :
  let cell := fun x : option jsstring =>
    [dq] ++ match x with Some s => s | None => [] end ++ [dq] in
  let level := fun p : option Priority =>
    match p with
    | Some P1 => Some (lit "P1")
    | Some P2 => Some (lit "P2")
    | Some P3 => Some (lit "P3")
    | None => None
    end in
  let row := fun a : Action =>
    [dq] ++ title a ++ [dq] ++ lit "," ++ cell (owner a) ++ lit ","
    ++ cell (level (priority a)) ++ lit "," ++ cell (due_window a) in
  let header := litq "'Title','Owner','Priority','Due Window'" in
  downloadCSV (Some analysis)
  = Some (header ++ flat_map (fun a => [nl] ++ row a) (actions analysis))
  /\ (actions analysis = [] -> downloadCSV (Some analysis) = Some header).
Proof.
  intros cell level row header.
  assert (Hrow : forall a, csvRow (actionCells a) = row a).
  { intros a. unfold csvRow, actionCells, row, cell, quoteCell.
    cbn [map join]. rewrite !orEmpty_default.
    assert (L : option_map priorityString (priority a) = level (priority a))
      by now destruct (priority a) as [[| |]|].
    rewrite L. repeat rewrite <- app_assoc. reflexivity. }
  assert (H : downloadCSV (Some analysis)
              = Some (header ++ flat_map (fun a => [nl] ++ row a) (actions analysis))).
  { unfold downloadCSV. cbn [map]. rewrite join_lines, !flat_map_rows.
    f_equal. f_equal. apply flat_map_ext. intros a. now rewrite Hrow. }
  split; [exact H|].
  intros Hnil. rewrite H, Hnil. cbn [flat_map]. now rewrite app_nil_r.
Qed.

(** The report with a single action that has a title only. *)
Lemma downloadCSV_absent_fields :
  downloadCSV
    (Some {| csf := {| Identify := []; Protect := []; Detect := []; Respond := [];
                       Recover := [] |};
             timeline := []; severity := High; root_cause := []; impacted_assets := [];
             mitre := None; nist_800_53 := None; customer_safe_summary := [];
             actions := [Samples.oneAction] |})
  = Some (litq "'Title','Owner','Priority','Due Window'" ++ [nl]
          ++ litq "'Rotate credentials','','',''").
Proof. vm_compute. reflexivity. Qed.

(** A double quote inside a field is enclosed like any other character. *)
Lemma csvRow_keeps_quotes :
  csvRow [lit "say " ++ [dq] ++ lit "hi" ++ [dq]] = litq "'say 'hi''".
Proof. reflexivity. Qed.

(** *** The attachments of the uploads *)

Section Normalizer.

Variable File_text : File -> Completion jsstring.
Variable mammoth_extractRawText : File -> Completion jsstring.
Variable pdfjs_getDocument : File -> Completion (list (Completion (list TextItem))).

Local Notation "'toAttachment''" :=
  (toAttachment File_text mammoth_extractRawText pdfjs_getDocument).
Local Notation "'collect'" :=
  (collectAttachments File_text mammoth_extractRawText pdfjs_getDocument).

(** A file of no supported kind yields [null], without being read. *)
Lemma toAttachment_unsupported (file : File) :
  supported file = false -> toAttachment' file = Normal None.
Proof.
  unfold supported, isPlainText, toAttachment. intros H.
  apply orb_false_iff in H as [H H3]. apply orb_false_iff in H as [H1 H2].
  now rewrite H1, H2, H3.
Qed.

(** A file of a supported kind yields an attachment under its own name,
    unless it is plain text that cannot be read. *)
Lemma toAttachment_supported (file : File) :
  supported file = true ->
  (isPlainText file = true -> exists text, File_text file = Normal text) ->
  exists a, toAttachment' file = Normal (Some a) /\ att_name a = name file.
Proof.
  unfold supported, toAttachment. intros H Hread.
  destruct (endsWith (name file) (lit ".docx")); [eexists; split; reflexivity|].
  destruct (endsWith (name file) (lit ".pdf")); [eexists; split; reflexivity|].
  cbn [orb] in H. fold (isPlainText file). rewrite H.
  destruct (Hread H) as (text & ->). eexists; split; reflexivity.
Qed.

Lemma collectAttachments_cons (file : File) (files : list File) :
  collect (file :: files) =
  cbind (toAttachment' file) (fun a =>
  cbind (collect files) (fun rest =>
  Normal (match a with Some a => a :: rest | None => rest end))).
Proof.
  unfold collectAttachments. cbn [map Promise_all].
  destruct (toAttachment' file) as [[a|]|e]; cbn [cbind]; try reflexivity;
    destruct (Promise_all _); reflexivity.
Qed.

(** Unsupported files change nothing: not the attachments, not the
    failure of a sibling. *)
Lemma collectAttachments_filter (files : list File) :
  collect files = collect (filter supported files).
Proof.
  induction files as [|file files IH]; [reflexivity|].
  cbn [filter]. destruct (supported file) eqn:E.
  - rewrite !collectAttachments_cons. now rewrite IH.
  - rewrite collectAttachments_cons, (toAttachment_unsupported _ E). cbn [cbind].
    rewrite IH. now destruct (collect (filter supported files)).
Qed.

(** C9: collecting the attachments of the uploads gives one attachment per
    file of a supported kind, under that file's name and in the order of
    the uploads; a file of no supported kind leaves no trace, neither an
    attachment nor an error: the outcome is that of the supported files
    alone.  (Plain text must be readable; the extraction of a DOCX or PDF
    that fails is replaced by a placeholder text inside the function.) *)
Theorem collectAttachments_supported_only (files : list File) :
  (forall file, In file files -> isPlainText file = true ->
                exists text, File_text file = Normal text) ->
  exists attachments,
    collect files = Normal attachments
    /\ map att_name attachments = map name (filter supported files)
    /\ collect (filter supported files) = Normal attachments.
Proof.
  intros Hread. rewrite <- collectAttachments_filter.
  enough (exists attachments, collect files = Normal attachments
            /\ map att_name attachments = map name (filter supported files))
    as (l & H1 & H2) by (exists l; auto).
  induction files as [|file files IH].
  - exists []. split; reflexivity.
  - destruct IH as (rest & Hrest & Hnames).
    { intros f Hf. apply Hread. now right. }
    rewrite collectAttachments_cons, Hrest. cbn [filter].
    destruct (supported file) eqn:E.
    + destruct (toAttachment_supported file E (Hread file (or_introl eq_refl)))
        as (a & -> & Ha).
      exists (a :: rest). cbn [cbind map]. now rewrite Ha, Hnames.
    + rewrite (toAttachment_unsupported _ E). exists rest. now cbn [cbind].
Qed.

(** What [handleAnalyze] sends, and the prompt the route builds from it:
    one fragment per collected attachment. *)
Lemma handleAnalyze_body (c : char16) (ticket : jsstring) (files : list File)
  (attachments : list Attachment) :
  trim ticket = c :: tl (trim ticket) ->
  collect files = Normal attachments ->
  handleAnalyze File_text mammoth_extractRawText pdfjs_getDocument ticket files
  = Some (Normal (requestBody ticket attachments)).
Proof.
  intros Ht Hc. unfold handleAnalyze. rewrite Ht, Hc. reflexivity.
Qed.

Lemma requestBody_prompt (Number_toString : float -> jsstring) (ticket : jsstring)
  (attachments : list Attachment) :
  Route.buildUserPrompt Number_toString ticket
    (Route.attachmentsOf [(lit "ticket", JString ticket);
                          (lit "attachments", JArray (map attachmentValue attachments))])
  = Normal (lit "TICKET:" ++ [nl] ++ ticket ++ [nl; nl] ++
            flat_map (fun a =>
                        lit "ATTACHMENT: " ++ att_name a ++ lit " (" ++ att_mime a
                        ++ lit ")" ++ [nl]
                        ++ firstn (Z.to_nat 6000) (att_text a) ++ [nl; nl])
              attachments).
Proof.
  change (Route.attachmentsOf _) with (JArray (map attachmentValue attachments)).
  unfold Route.buildUserPrompt. cbn [truthy isArray andb elements].
  rewrite RouteFacts.appendAttachments_built.
  repeat rewrite <- app_assoc. reflexivity.
Qed.

End Normalizer.

(** *** Pagination *)

Local Open Scope Q_scope.

Lemma addImage_length (pdf : Pdf) (p : Placement) :
  pdf <> [] -> List.length (addImage pdf p) = List.length pdf.
Proof.
  intros H. unfold addImage.
  destruct (rev pdf) as [|last before] eqn:E.
  - apply (f_equal (@rev _)) in E. rewrite rev_involutive in E. now elim H.
  - rewrite <- (length_rev pdf), E, length_app, length_rev. cbn. lia.
Qed.

Lemma addImage_nonempty (pdf : Pdf) (p : Placement) : pdf <> [] -> addImage pdf p <> [].
Proof.
  intros H E. apply (f_equal (@List.length _)) in E.
  rewrite addImage_length in E by assumption. destruct pdf; [now elim H|discriminate].
Qed.

Lemma addPage_length (pdf : Pdf) : List.length (addPage pdf) = S (List.length pdf).
Proof. unfold addPage. rewrite length_app. cbn. lia. Qed.

Lemma addPage_nonempty (pdf : Pdf) : addPage pdf <> [].
Proof. unfold addPage. now destruct pdf. Qed.

(** With [j] whole pages still to come the loop adds [j + 1] pages: it
    runs once more when nothing is left. *)
Lemma addPages_whole_pages (imgHeight : Q) :
  forall (j fuel : nat) (heightLeft : Q) (pdf : Pdf),
  heightLeft == inject_Z (Z.of_nat j) * pageHeight ->
  (j < fuel)%nat ->
  exists pdf',
    addPages fuel imgHeight heightLeft pdf = Some pdf'
    /\ List.length pdf' = (List.length pdf + j + 1)%nat.
Proof.
  induction j as [|j IH]; intros fuel heightLeft pdf Hh Hfuel;
    (destruct fuel as [|fuel]; [lia|]); cbn [addPages].
  - assert (E : Qle_bool 0 heightLeft = true).
    { apply Qle_bool_iff. rewrite Hh. cbn. rewrite Qmult_0_l. apply Qle_refl. }
    rewrite E.
    assert (E' : Qle_bool 0 (heightLeft - pageHeight) = false).
    { apply not_true_is_false. intros C. apply Qle_bool_iff in C.
      rewrite Hh in C. cbn in C. rewrite Qmult_0_l in C.
      revert C. unfold pageHeight, margin. intros C. compute in C. now apply C. }
    destruct fuel as [|fuel]; cbn [addPages]; rewrite E';
      (eexists; split; [reflexivity|]);
      rewrite addImage_length by apply addPage_nonempty;
      rewrite addPage_length; lia.
  - assert (E : Qle_bool 0 heightLeft = true).
    { apply Qle_bool_iff. rewrite Hh. apply Qmult_le_0_compat.
      - unfold Qle. cbn. lia.
      - unfold pageHeight, margin. compute. discriminate. }
    rewrite E.
    destruct (IH fuel (heightLeft - pageHeight)
                (addImage (addPage pdf)
                   {| x := margin; y := margin - (imgHeight - heightLeft);
                      w := imgWidth; h := imgHeight |})) as (pdf' & Hrun & Hlen).
    + rewrite Hh. rewrite Nat2Z.inj_succ. unfold Z.succ. rewrite inject_Z_plus. ring.
    + lia.
    + exists pdf'. split; [exact Hrun|].
      rewrite Hlen, addImage_length by apply addPage_nonempty.
      rewrite addPage_length. lia.
Qed.

(** An image whose scaled height is exactly [k] usable page heights, for
    any [k >= 1], is laid out on [k + 1] pages. *)
Lemma downloadPDF_whole_pages (k : nat) (canvas : Canvas) (fuel : nat) :
  (0 < width canvas)%Z ->
  (inject_Z (height canvas) * imgWidth) / inject_Z (width canvas)
    == inject_Z (Z.of_nat (S k)) * pageHeight ->
  (k < fuel)%nat ->
  exists pdf, downloadPDF fuel canvas = Some pdf /\ List.length pdf = (S k + 1)%nat.
Proof.
  intros Hw Hh Hfuel. unfold downloadPDF.
  destruct (addPages_whole_pages
              ((inject_Z (height canvas) * imgWidth) / inject_Z (width canvas))
              k fuel
              ((inject_Z (height canvas) * imgWidth) / inject_Z (width canvas) - pageHeight)
              (addImage newPdf
                 {| x := margin; y := margin;
                    w := imgWidth;
                    h := (inject_Z (height canvas) * imgWidth) / inject_Z (width canvas) |}))
    as (pdf & Hrun & Hlen).
  - rewrite Hh. rewrite Nat2Z.inj_succ. unfold Z.succ. rewrite inject_Z_plus. ring.
  - exact Hfuel.
  - exists pdf. split; [exact Hrun|]. rewrite Hlen. cbn. lia.
Qed.

(** An image shorter than the usable height of a page stays on one page. *)
Lemma downloadPDF_single_page (canvas : Canvas) (fuel : nat) :
  (inject_Z (height canvas) * imgWidth) / inject_Z (width canvas) < pageHeight ->
  exists p, downloadPDF fuel canvas = Some [[p]].
Proof.
  intros H. unfold downloadPDF.
  assert (E : Qle_bool 0 ((inject_Z (height canvas) * imgWidth) / inject_Z (width canvas)
                          - pageHeight) = false).
  { apply not_true_is_false. intros C. apply Qle_bool_iff in C.
    apply Qlt_not_le in H. apply H. apply (Qplus_le_l _ _ (- pageHeight)).
    rewrite Qplus_opp_r. exact C. }
  destruct fuel; cbn [addPages]; rewrite E; eexists; reflexivity.
Qed.

Lemma addImage_addPage (pdf : Pdf) (p : Placement) : addImage (addPage pdf) p = pdf ++ [[p]].
Proof.
  unfold addImage, addPage. rewrite rev_app_distr. cbn. now rewrite rev_involutive.
Qed.

Lemma laidOut_app (pdf1 pdf2 : Pdf) :
  forall i, laidOut i pdf1 -> laidOut (i + List.length pdf1) pdf2 -> laidOut i (pdf1 ++ pdf2).
Proof.
  induction pdf1 as [|page pdf1 IH]; intros i H1 H2; cbn in *.
  - now rewrite Nat.add_0_r in H2.
  - destruct H1 as [Hp H1]. split; [exact Hp|]. apply IH; [exact H1|].
    now rewrite Nat.add_succ_l, <- Nat.add_succ_r.
Qed.

Lemma addPages_laidOut (imgHeight : Q) :
  forall fuel heightLeft pdf pdf',
  heightLeft == imgHeight - inject_Z (Z.of_nat (List.length pdf)) * pageHeight ->
  laidOut 0 pdf ->
  addPages fuel imgHeight heightLeft pdf = Some pdf' ->
  laidOut 0 pdf'.
Proof.
  induction fuel as [|fuel IH]; intros heightLeft pdf pdf' Hh Hl; cbn [addPages];
    destruct (Qle_bool 0 heightLeft); try discriminate;
    try (intros E; injection E as <-; exact Hl).
  rewrite addImage_addPage. apply IH.
  - rewrite length_app. cbn [List.length]. rewrite Nat.add_1_r, Nat2Z.inj_succ.
    unfold Z.succ. rewrite inject_Z_plus, Hh. ring.
  - apply laidOut_app; [exact Hl|]. cbn. split; [|exact I].
    eexists. split; [reflexivity|]. cbn [y]. rewrite Hh. ring.
Qed.

(** Every page holds the image once, one usable page height further up
    than the page before: the usable areas show consecutive bands of the
    image. *)
Lemma downloadPDF_laidOut (fuel : nat) (canvas : Canvas) (pdf : Pdf) :
  downloadPDF fuel canvas = Some pdf -> laidOut 0 pdf.
Proof.
  unfold downloadPDF. apply addPages_laidOut.
  - cbn. ring.
  - cbn. split; [|exact I]. eexists. split; [reflexivity|]. cbn. ring.
Qed.

(** The loop ends: fuel beyond the number of pages is never used up. *)
Lemma addPages_terminates (imgHeight : Q) :
  forall fuel heightLeft pdf,
  heightLeft < inject_Z (Z.of_nat fuel) * pageHeight ->
  exists pdf', addPages fuel imgHeight heightLeft pdf = Some pdf'.
Proof.
  induction fuel as [|fuel IH]; intros heightLeft pdf H; cbn [addPages].
  - assert (E : Qle_bool 0 heightLeft = false).
    { apply not_true_is_false. intros C. apply Qle_bool_iff in C.
      cbn in H. rewrite Qmult_0_l in H. apply (Qlt_not_le _ _ H C). }
    rewrite E. now eexists.
  - destruct (Qle_bool 0 heightLeft); [|now eexists].
    apply IH. rewrite Nat2Z.inj_succ in H. unfold Z.succ in H.
    rewrite inject_Z_plus in H. change (inject_Z 1) with 1 in H.
    unfold pageHeight, margin in *. lra.
Qed.

Lemma downloadPDF_terminates (canvas : Canvas) :
  exists fuel pdf, downloadPDF fuel canvas = Some pdf.
Proof.
  set (imgHeight := (inject_Z (height canvas) * imgWidth) / inject_Z (width canvas)).
  set (n := Z.to_nat (Z.max 0 (Qceiling imgHeight))).
  exists n. unfold downloadPDF. fold imgHeight.
  apply addPages_terminates.
  assert (H1 : imgHeight <= inject_Z (Z.of_nat n)).
  { unfold n. rewrite Z2Nat.id by lia.
    apply Qle_trans with (inject_Z (Qceiling imgHeight)); [apply Qle_ceiling|].
    rewrite <- Zle_Qle. lia. }
  assert (H2 : 0 <= inject_Z (Z.of_nat n)).
  { change 0 with (inject_Z 0). rewrite <- Zle_Qle. lia. }
  unfold pageHeight, margin. lra.
Qed.

(** C7, at the input where the code departs from it: a canvas of 1800 by
    2670 pixels scales to exactly one usable page height (267 mm), and the
    document gets two pages.  On the second the image ends where the usable
    area begins: the page shows nothing new. *)
Theorem downloadPDF_exact_page_adds_blank :
  exists first second,
    downloadPDF 10 {| width := 1800; height := 2670 |} = Some [[first]; [second]]
    /\ h first == pageHeight
    /\ y second + h second == margin.
Proof.
  eexists. eexists. split; [vm_compute; reflexivity|].
  split; vm_compute; reflexivity.
Qed.

End PageFacts.

(** ** The statements at concrete inputs *)

Module Examples.
Import JS Route.

(** A valid ticket: the narrative of the scenario. *)
Lemma narrative_valid :
  validTicket [(lit "ticket", JString Samples.narrative)] Samples.narrative.
Proof.
  split; [reflexivity|]. split; [discriminate|]. vm_compute. discriminate.
Defined.

Lemma sample_configured (body : JsValue) : configured (Samples.requestOf body).
Proof. eexists. eexists. reflexivity. Defined.

(** The primary answer is cut short.  When the repair answers with the
    whole payload in a fence, the payload is the analysis; when the repair
    answers with the same cut text, the run fails with the message of the
    second parse error.  Two calls either way. *)
Lemma POST_repairs_once_witness :
  let request := Samples.requestOf (Samples.ticketBody (JString Samples.narrative)) in
  let repaired :=
    POST Samples.Number_toString Samples.JSON_parse
      (Samples.scripted [Samples.answer Samples.truncated;
                         Samples.answer (Samples.fencedJson Samples.payload)])
      request initial in
  let failed :=
    POST Samples.Number_toString Samples.JSON_parse
      (Samples.scripted [Samples.answer Samples.truncated;
                         Samples.answer Samples.truncated])
      request initial in
  let primaryCall :=
    {| model := lit "gpt-4o-mini"; temperature := 0.2%float;
       messages := [ {| role := lit "system"; content := SYSTEM_PROMPT |};
                     {| role := lit "user";
                        content := lit "TICKET:" ++ [nl] ++ Samples.narrative ++ [nl; nl] |} ] |} in
  let repairCall :=
    {| model := lit "gpt-4o-mini"; temperature := 0.1%float;
       messages := [ {| role := lit "system";
                        content := lit "Fix malformed JSON. Output ONLY valid JSON." |};
                     {| role := lit "user";
                        content := lit "Fix this JSON:" ++ [nl]
                                   ++ litq "{'severity': 'High', 'acti" |} ] |} in
  calls (snd repaired) = [primaryCall; repairCall]
  /\ fst repaired
     = Normal {| status := 200;
                 body := JObject [(lit "analysis",
                                   JObject [(lit "severity", JString (lit "High"));
                                            (lit "actions", JArray [])])] |}
  /\ calls (snd failed) = [primaryCall; repairCall]
  /\ fst failed
     = Normal {| status := 500;
                 body := JObject [(lit "error",
                                   JString (lit "Unexpected token or end of JSON input"))] |}.
Proof.
  intros request repaired failed primaryCall repairCall.
  destruct (RouteFacts.POST_repairs_once
              Samples.Number_toString Samples.JSON_parse
              (Samples.scripted [Samples.answer Samples.truncated;
                                 Samples.answer (Samples.fencedJson Samples.payload)])
              request
              [(lit "ticket", JString Samples.narrative)] Samples.narrative
              (Samples.promptOf Samples.narrative)
              (Samples.completion Samples.truncated)
              (SyntaxError (lit "Unexpected token or end of JSON input"))
              eq_refl narrative_valid eq_refl (sample_configured _) eq_refl
              ltac:(vm_compute; reflexivity))
    as (Hcalls & Hparsed & _ & _).
  destruct (RouteFacts.POST_repairs_once
              Samples.Number_toString Samples.JSON_parse
              (Samples.scripted [Samples.answer Samples.truncated;
                                 Samples.answer Samples.truncated])
              request
              [(lit "ticket", JString Samples.narrative)] Samples.narrative
              (Samples.promptOf Samples.narrative)
              (Samples.completion Samples.truncated)
              (SyntaxError (lit "Unexpected token or end of JSON input"))
              eq_refl narrative_valid eq_refl (sample_configured _) eq_refl
              ltac:(vm_compute; reflexivity))
    as (Hcalls' & _ & Hfailed & _).
  split; [exact Hcalls|]. split; [|split; [exact Hcalls'|]].
  - apply (Hparsed (Samples.completion (Samples.fencedJson Samples.payload)));
      vm_compute; reflexivity.
  - apply (Hfailed (Samples.completion Samples.truncated) (lit "SyntaxError"));
      vm_compute; reflexivity.
Defined.

(** The scenario of the specification: the answer is the payload in a
    fence, and one call is all there is. *)
Lemma POST_parsed_without_repair_witness :
  POST Samples.Number_toString Samples.JSON_parse
    (Samples.scripted [Samples.answer (Samples.fencedJson Samples.payload)])
    (Samples.requestOf (Samples.ticketBody (JString Samples.narrative))) initial
  = (Normal {| status := 200;
               body := JObject [(lit "analysis",
                                 JObject [(lit "severity", JString (lit "High"));
                                          (lit "actions", JArray [])])] |},
     {| calls := [primaryRequest (Samples.promptOf Samples.narrative)]; console := [] |}).
Proof.
  apply (RouteFacts.POST_parsed_without_repair
           Samples.Number_toString Samples.JSON_parse
           (Samples.scripted [Samples.answer (Samples.fencedJson Samples.payload)])
           (Samples.requestOf (Samples.ticketBody (JString Samples.narrative)))
           [(lit "ticket", JString Samples.narrative)] Samples.narrative
           (Samples.promptOf Samples.narrative)
           (Samples.completion (Samples.fencedJson Samples.payload))
           Samples.payloadValue
           eq_refl narrative_valid eq_refl (sample_configured _) eq_refl).
  vm_compute. reflexivity.
Defined.

(** A ticket of 10,001 characters, a body without ticket and a ticket that
    is a number are turned away with status 400 before any call; a body
    that is not JSON is answered with status 500. *)
Lemma POST_rejects_invalid_ticket_witness :
  let run := fun request =>
    POST Samples.Number_toString Samples.JSON_parse (Samples.scripted []) request initial in
  let answer := fun (code : Z) (message : jsstring) =>
    {| status := code; body := JObject [(lit "error", JString message)] |} in
  run (Samples.requestOf (Samples.ticketBody (JString Samples.longTicket)))
  = (Normal (answer 400%Z (lit "Ticket description too long")), initial)
  /\ run (Samples.requestOf (JObject []))
     = (Normal (answer 400%Z (lit "Invalid ticket description")), initial)
  /\ run (Samples.requestOf (Samples.ticketBody (JNumber 7%float)))
     = (Normal (answer 400%Z (lit "Invalid ticket description")), initial)
  /\ fst (run MoreSamples.notJson)
     = Normal (answer 500%Z (lit "Unexpected token 'h', 'hello' is not valid JSON"))
  /\ calls (snd (run MoreSamples.notJson)) = [].
Proof.
  intros run answer.
  split; [|split; [|split]].
  - apply (proj1 (proj2 (RouteFacts.POST_rejects_invalid_ticket
             Samples.Number_toString Samples.JSON_parse (Samples.scripted [])
             (Samples.requestOf (Samples.ticketBody (JString Samples.longTicket)))))
             (Samples.ticketBody (JString Samples.longTicket)) Samples.longTicket
             eq_refl eq_refl).
    vm_compute. reflexivity.
  - apply (proj1 (RouteFacts.POST_rejects_invalid_ticket
             Samples.Number_toString Samples.JSON_parse (Samples.scripted [])
             (Samples.requestOf (JObject [])))
             (JObject []) JUndefined eq_refl eq_refl).
    now left.
  - apply (proj1 (RouteFacts.POST_rejects_invalid_ticket
             Samples.Number_toString Samples.JSON_parse (Samples.scripted [])
             (Samples.requestOf (Samples.ticketBody (JNumber 7%float))))
             (Samples.ticketBody (JNumber 7%float)) (JNumber 7%float) eq_refl eq_refl).
    right. intros t. discriminate.
  - apply (proj2 (proj2 (proj2 (RouteFacts.POST_rejects_invalid_ticket
             Samples.Number_toString Samples.JSON_parse (Samples.scripted [])
             MoreSamples.notJson)))
             (lit "SyntaxError") (lit "Unexpected token 'h', 'hello' is not valid JSON")
             eq_refl).
Defined.

(** C2, the claim as stated fails: the body of this request is [null], so
    it has no ticket, and the answer is status 500, not 400. *)
Lemma POST_null_body_answers_500 :
  exists message,
    fst (POST Samples.Number_toString Samples.JSON_parse (Samples.scripted [])
           (Samples.requestOf JNull) initial)
    = Normal {| status := 500; body := JObject [(lit "error", JString message)] |}
    /\ calls (snd (POST Samples.Number_toString Samples.JSON_parse (Samples.scripted [])
                     (Samples.requestOf JNull) initial)) = [].
Proof. eexists. split; vm_compute; reflexivity. Qed.


(** The payload in a [```json] fence is stripped to the payload, with the
    closing fence on a line of its own or right after the payload; the
    plain fence keeps its opening line; and the run whose answer is the
    payload in a [```json] fence returns the payload's value. *)
Lemma stripFence_json_fence_witness :
  stripFence (lit "```json" ++ [nl] ++ Samples.payload ++ [nl] ++ lit "```") = Samples.payload
  /\ stripFence (lit "```json" ++ Samples.payload ++ lit "```") = Samples.payload
  /\ stripFence (lit "```" ++ [nl] ++ lit "{}" ++ [nl] ++ lit "```") = lit "```" ++ [nl] ++ lit "{}"
  /\ POST Samples.Number_toString Samples.JSON_parse
       (Samples.scripted [Samples.answer (Samples.fencedJson Samples.payload)])
       (Samples.requestOf (Samples.ticketBody (JString Samples.narrative))) initial
     = (Normal {| status := 200;
                  body := JObject [(lit "analysis",
                                    JObject [(lit "severity", JString (lit "High"));
                                             (lit "actions", JArray [])])] |},
        {| calls := [primaryRequest (Samples.promptOf Samples.narrative)]; console := [] |}).
Proof.
  destruct (RouteFacts.stripFence_json_fence Samples.Number_toString Samples.JSON_parse
              (Samples.scripted [Samples.answer (Samples.fencedJson Samples.payload)]))
    as (Hline & Hbare & Hplain & Hrun).
  split; [|split; [|split]].
  - exact (Hline [nl] [] (tl Samples.payload) 123 eq_refl eq_refl eq_refl).
  - apply (Hbare [] [] (tl Samples.payload) 123 eq_refl eq_refl eq_refl).
    intros q Hq. apply (f_equal (fun l => last l 0)) in Hq.
    rewrite last_last in Hq. vm_compute in Hq. discriminate.
  - exact (Hplain (lit "```" ++ [nl] ++ lit "{}") [] eq_refl eq_refl).
  - apply (Hrun (Samples.requestOf (Samples.ticketBody (JString Samples.narrative)))
             [(lit "ticket", JString Samples.narrative)] Samples.narrative
             (Samples.promptOf Samples.narrative)
             (Samples.completion (Samples.fencedJson Samples.payload))
             [nl] [] (tl Samples.payload) 123 Samples.payloadValue
             eq_refl narrative_valid eq_refl (sample_configured _) eq_refl
             eq_refl eq_refl eq_refl eq_refl).
    vm_compute. reflexivity.
Defined.

(** C4, the claim as stated fails: a fence without the language tag is a
    code fence too, and only its closing line is stripped.  What is left
    is not the payload. *)
Lemma stripFence_plain_fence_kept :
  stripFence (Samples.fencedPlain (lit "{}")) = lit "```" ++ [nl] ++ lit "{}"
  /\ stripFence (Samples.fencedPlain (lit "{}")) <> lit "{}".
Proof. split; [vm_compute; reflexivity|vm_compute; discriminate]. Qed.

(** A short text is included whole and stays well formed; the text with
    the pair across the boundary does not. *)
Lemma truncation_wellFormed_witness :
  isWellFormed (substring Samples.wholePair 0 6000) = true
  /\ isWellFormed (substring Samples.splitPair 0 6000) = false.
Proof.
  split.
  - exact (RouteFacts.truncation_wellFormed Samples.wholePair
             (substring Samples.wholePair 0 6000) eq_refl eq_refl).
  - exact (RouteFacts.truncation_wellFormed Samples.splitPair
             (substring Samples.splitPair 0 6000)
             ltac:(vm_compute; reflexivity) eq_refl).
Defined.

(** C6, the claim as stated fails: the text is well formed, its first
    6,000 code units end with the first half of a pair. *)
Lemma truncation_splits_pair :
  isWellFormed Samples.splitPair = true
  /\ exists cut,
       text_substring (JString Samples.splitPair) = Normal cut
       /\ isWellFormed cut = false
       /\ last cut 0 = 0xD83D.
Proof.
  split; [vm_compute; reflexivity|].
  eexists. split; [reflexivity|]. split; vm_compute; reflexivity.
Qed.

(** Three uploads, one of them an image: two attachments. *)
Lemma collectAttachments_supported_only_witness :
  exists attachments,
    Page.collectAttachments Samples.File_text Samples.mammoth_extractRawText
      Samples.pdfjs_getDocument [Samples.report; Samples.trace; Samples.image]
    = Normal attachments
    /\ map Page.att_name attachments = [lit "report.docx"; lit "trace.log"].
Proof.
  destruct (PageFacts.collectAttachments_supported_only
              Samples.File_text Samples.mammoth_extractRawText Samples.pdfjs_getDocument
              [Samples.report; Samples.trace; Samples.image]
              (fun file _ _ => ex_intro _ (Page.bytes file) eq_refl))
    as (attachments & H1 & H2 & _).
  exists attachments. split; [exact H1|exact H2].
Defined.

(** C8, the claim as stated fails: the double quotes of a field are not
    escaped.  The title [x","y] is exported as it is, so the row of this
    action reads as five fields, and the report exports the very text of
    another report, whose action has the title [x] and the owner [y","]. *)
Lemma downloadCSV_quotes_collide :
  Page.downloadCSV (Some (MoreSamples.reportOf [MoreSamples.quotedTitle]))
  = Some (litq "'Title','Owner','Priority','Due Window'" ++ [nl]
          ++ litq "'x','y','','',''")
  /\ Page.downloadCSV (Some (MoreSamples.reportOf [MoreSamples.quotedOwner]))
     = Page.downloadCSV (Some (MoreSamples.reportOf [MoreSamples.quotedTitle]))
  /\ Page.title MoreSamples.quotedOwner <> Page.title MoreSamples.quotedTitle.
Proof.
  split; [vm_compute; reflexivity|].
  split; [vm_compute; reflexivity|vm_compute; discriminate].
Qed.

End Examples.

(** * Further properties of the route and the page *)

(** ** The route *)

Module RouteMore.
Import JS Route JSFacts FenceFacts.

(** *** What stripping can and cannot do to a text *)

Lemma trimStart_suffix (s : jsstring) : exists pre, s = pre ++ trimStart s.
Proof.
  induction s as [|c s (pre & IH)]; [now exists []|].
  cbn. destruct (isWhiteSpace c).
  - exists (c :: pre). cbn. now rewrite <- IH.
  - now exists [].
Qed.

Lemma replace_fenceOpen_suffix (s : jsstring) :
  exists pre, s = pre ++ replace fenceOpen [] s.
Proof.
  rewrite replace_fenceOpen. destruct (startsWith s (lit "```json")); [|now exists []].
  destruct (trimStart_suffix (skipn 7 s)) as (pre & H).
  exists (firstn 7 s ++ pre). rewrite <- app_assoc, <- H. symmetry. apply firstn_skipn.
Qed.

Lemma search_fenceClose_prefix (s : jsstring) :
  forall pos before pre post,
  search fenceClose pos before s = Some (pre, post) ->
  post = [] /\ exists t, rev before ++ s = pre ++ t.
Proof.
  induction s as [|c s IH]; intros pos before pre post; cbn [search];
    rewrite matchAt_fenceClose.
  - destruct (closesHere []); [|discriminate].
    intros E. injection E as <- <-. split; [reflexivity|]. now exists [].
  - destruct (closesHere (if c =? nl then s else c :: s)).
    + intros E. injection E as <- <-. split; [reflexivity|]. now exists (c :: s).
    + intros E. apply IH in E as (Hp & t & Ht). split; [exact Hp|].
      exists t. rewrite <- Ht. cbn [rev]. now rewrite <- app_assoc.
Qed.

Lemma replace_fenceClose_prefix (s : jsstring) :
  exists post, s = replace fenceClose [] s ++ post.
Proof.
  unfold replace. destruct (search fenceClose 0 [] s) as [[pre post]|] eqn:E.
  - apply search_fenceClose_prefix in E as (-> & t & Ht). cbn in Ht.
    exists t. now rewrite app_nil_r.
  - exists []. now rewrite app_nil_r.
Qed.

(** X7: stripping only removes from the two ends: what is left stands in the
    response as it is. *)
Theorem stripFence_infix (content : jsstring) :
  exists pre post, content = pre ++ stripFence content ++ post.
Proof.
  unfold stripFence.
  destruct (replace_fenceOpen_suffix content) as (pre & Hpre).
  destruct (replace_fenceClose_prefix (replace fenceOpen [] content)) as (post & Hpost).
  exists pre, post. now rewrite <- Hpost.
Qed.

Lemma closesHere_needs_backtick (t : jsstring) : ~ In 96 t -> closesHere t = false.
Proof.
  intros H. unfold closesHere. destruct t as [|c t]; [reflexivity|].
  cbn. destruct (c =? 96) eqn:E; [|reflexivity].
  apply N.eqb_eq in E. subst c. elim H. now left.
Qed.

Lemma search_fenceClose_none (s : jsstring) :
  ~ In 96 s -> forall pos before, search fenceClose pos before s = None.
Proof.
  induction s as [|c s IH]; intros H pos before; cbn [search];
    rewrite matchAt_fenceClose.
  - reflexivity.
  - assert (Hs : ~ In 96 s) by (intros F; apply H; now right).
    rewrite closesHere_needs_backtick by (destruct (c =? nl); assumption).
    now apply IH.
Qed.

(** X6: a response without a back-tick is parsed as it came. *)
Theorem stripFence_no_backtick (content : jsstring) :
  ~ In 96 content -> stripFence content = content.
Proof.
  intros H. unfold stripFence. rewrite replace_fenceOpen.
  assert (E : startsWith content (lit "```json") = false).
  { destruct content as [|c s]; [reflexivity|]. cbn.
    destruct (c =? 96) eqn:E; [|reflexivity].
    apply N.eqb_eq in E. subst c. elim H. now left. }
  rewrite E. unfold replace. now rewrite search_fenceClose_none.
Qed.

Section Handler.

Variable Number_toString : float -> jsstring.
Variable JSON_parse : jsstring -> Completion JsValue.
Variable create : list ChatRequest -> ChatRequest -> Completion ChatCompletion.

Local Notation "'handler'" := (POST Number_toString JSON_parse create).

(** The outcome of [parseOrFix], entered right after the call [req]: a
    value that [JSON.parse] made of the stripped answer to the last call
    issued, and that call was answered on the calls issued before it; at
    most one call further on. *)
Lemma parseOrFix_outcome (answer : ChatCompletion) (before : list ChatRequest)
  (req : ChatRequest) (w : World) :
  calls w = before ++ [req] ->
  create before req = Normal answer ->
  match parseOrFix JSON_parse create (stripFence (contentOf answer)) w with
  | (c, w') =>
      (exists issued, calls w' = calls w ++ issued /\ (List.length issued <= 1)%nat)
      /\ match c with
         | Normal v =>
             exists before' req' answer',
               create before' req' = Normal answer'
               /\ JSON_parse (stripFence (contentOf answer')) = Normal v
               /\ calls w' = before' ++ [req']
               /\ exists earlier, before' = before ++ earlier
         | Throw _ => True
         end
  end.
Proof.
  intros Hw Ha. unfold parseOrFix, try_catch, lift, bind, console_log, call.
  destruct (JSON_parse (stripFence (contentOf answer))) as [v|e] eqn:E.
  - split; [exists []; split; [now rewrite app_nil_r|cbn; lia]|].
    exists before, req, answer. repeat split; try assumption.
    exists []. now rewrite app_nil_r.
  - cbn [calls console].
    destruct (create (calls w) (fixRequest (stripFence (contentOf answer))))
      as [fixResp|e'] eqn:F.
    + split; [eexists; split; [reflexivity|cbn; lia]|].
      destruct (JSON_parse (stripFence (contentOf fixResp))) as [v|e''] eqn:G; [|exact I].
      exists (calls w), (fixRequest (stripFence (contentOf answer))), fixResp.
      repeat split; try assumption. now exists [req].
    + split; [eexists; split; [reflexivity|cbn; lia]|exact I].
Qed.

(** Every way a run can end. *)
Lemma POST_outcome (request : NextRequest) (w : World) :
  match handler request w with
  | (Normal resp, w') =>
      (exists issued, calls w' = calls w ++ issued /\ (List.length issued <= 2)%nat)
      /\ ((status resp = 200%Z
           /\ exists before req answer v,
                create before req = Normal answer
                /\ JSON_parse (stripFence (contentOf answer)) = Normal v
                /\ calls w' = before ++ [req]
                /\ (exists earlier, before = calls w ++ earlier)
                /\ body resp = analysis_body v)
          \/ ((status resp = 400 \/ status resp = 500)%Z
              /\ exists message, body resp = error_body message))
  | (Throw _, _) => False
  end.
Proof.
  assert (Same : forall w' : World, calls w' = calls w ->
            exists issued, calls w' = calls w ++ issued /\ (List.length issued <= 2)%nat).
  { intros w' H. exists []. split; [now rewrite app_nil_r|cbn; lia]. }
  unfold POST, try_catch, bind, lift, ret, console_error.
  destruct (json request) as [body|e];
    [|split; [now apply Same|right; split; [now right|now eexists]]].
  destruct (destructure body) as [[ticket attachments]|e]; cbn [fst snd];
    [|split; [now apply Same|right; split; [now right|now eexists]]].
  destruct (negb (truthy ticket) || negb (eqb16 (typeof ticket) (lit "string")));
    [split; [now apply Same|right; split; [now left|now eexists]]|].
  destruct (length16 (stringValue ticket) >? 10000)%Z;
    [split; [now apply Same|right; split; [now left|now eexists]]|].
  destruct (buildUserPrompt Number_toString (stringValue ticket) attachments)
    as [userPrompt|e];
    [|split; [now apply Same|right; split; [now right|now eexists]]].
  destruct (orEmpty (OPENAI_API_KEY request));
    [split; [now apply Same|right; split; [now right|now eexists]]|].
  unfold call at 1.
  destruct (create (calls w) (primaryRequest userPrompt)) as [answer|e] eqn:Ha.
  2:{ split; [|right; split; [now right|now eexists]].
      exists [primaryRequest userPrompt]. split; [reflexivity|cbn; lia]. }
  pose proof (parseOrFix_outcome answer (calls w) (primaryRequest userPrompt)
                {| calls := calls w ++ [primaryRequest userPrompt]; console := console w |}
                eq_refl Ha) as H.
  destruct (parseOrFix JSON_parse create (stripFence (contentOf answer)) _) as [[v|e] w'];
    destruct H as ((issued & Hcalls & Hlen) & H); cbn [calls] in Hcalls.
  - split.
    + exists (primaryRequest userPrompt :: issued). split.
      * rewrite Hcalls, <- app_assoc. reflexivity.
      * cbn. lia.
    + left. split; [reflexivity|].
      destruct H as (before' & req' & answer' & H1 & H2 & H3 & H4).
      exists before', req', answer', v. repeat split; assumption.
  - split.
    + exists (primaryRequest userPrompt :: issued). split.
      * cbn [calls]. rewrite Hcalls, <- app_assoc. reflexivity.
      * cbn. lia.
    + right. split; [now right|now eexists].
Qed.


(** X2: an answer with status 200 is the object whose one property,
    [analysis], is the value that [JSON.parse] made of the stripped
    content of the answer to the last call of this run; that call was
    issued in this run, after the calls the run started with, and the
    capability answered it on the calls issued before it. *)
Theorem POST_ok_is_parsed (request : NextRequest) (w : World) (resp : Response) :
  fst (handler request w) = Normal resp ->
  status resp = 200%Z ->
  exists earlier req answer v,
    calls (snd (handler request w)) = (calls w ++ earlier) ++ [req]
    /\ create (calls w ++ earlier) req = Normal answer
    /\ JSON_parse (stripFence (contentOf answer)) = Normal v
    /\ resp = {| status := 200; body := JObject [(lit "analysis", v)] |}.
Proof.
  pose proof (POST_outcome request w) as H.
  destruct (handler request w) as [[resp'|e] w']; [|contradiction].
  cbn [fst snd]. intros E Hs. injection E as ->.
  destruct H as (_ & [(_ & H) | ([Hs' | Hs'] & _)]); [|lia|lia].
  destruct H as (before & req & answer & v & Hc & Hp & Hw & (earlier & ->) & Hb).
  exists earlier, req, answer, v. repeat split; try assumption.
  destruct resp as [code content]. cbn [status body] in *. now subst.
Qed.

Local Notation "'run' request" := (POST Number_toString JSON_parse create request initial)
  (at level 10, request at level 9).




(** X8: the prompt is bounded by the ticket and, per attachment, by its name,
    its media type and 6,018 code units: the text of an attachment never
    counts for more than 6,000. *)
Theorem prompt_length_bound (ticket : jsstring) (attachments : list Page.Attachment) :
  exists userPrompt,
    buildUserPrompt Number_toString ticket (JArray (map Page.attachmentValue attachments))
    = Normal userPrompt
    /\ (length16 userPrompt
        <= 10 + length16 ticket
           + fold_right (fun a total =>
                           6018 + length16 (Page.att_name a) + length16 (Page.att_mime a)
                           + total) 0 attachments)%Z.
Proof.
  unfold buildUserPrompt. cbn [truthy isArray andb elements].
  rewrite RouteFacts.appendAttachments_built. eexists. split; [reflexivity|].
  set (fragment := fun a : Page.Attachment =>
         lit "ATTACHMENT: " ++ Page.att_name a ++ lit " (" ++ Page.att_mime a
         ++ lit ")" ++ [nl] ++ firstn (Z.to_nat 6000) (Page.att_text a) ++ [nl; nl]).
  assert (H : (length16 (flat_map fragment attachments)
               <= fold_right (fun a total =>
                     6018 + length16 (Page.att_name a) + length16 (Page.att_mime a)
                     + total) 0 attachments)%Z).
  { unfold length16. induction attachments as [|a rest IH]; [cbn; lia|].
    cbn [flat_map fold_right]. rewrite length_app. unfold fragment at 1.
    rewrite !length_app, length_firstn. cbn [List.length lit]. lia. }
  unfold length16 in *. rewrite !length_app. cbn [List.length lit]. lia.
Qed.

End Handler.
End RouteMore.

(** ** The page: files, attachments and the text of a PDF *)

Module HomeFacts.
Import JS Page JSFacts FenceFacts.

(** *** Blank tickets *)

Lemma trimStart_nil (s : jsstring) : trimStart s = [] <-> forallb isWhiteSpace s = true.
Proof.
  induction s as [|c s IH]; cbn; [tauto|].
  destruct (isWhiteSpace c); cbn; [exact IH|]. split; discriminate.
Qed.

Lemma trim_nil (s : jsstring) : trim s = [] <-> forallb isWhiteSpace s = true.
Proof.
  unfold trim. split.
  - intros H. apply (f_equal (@rev _)) in H. rewrite rev_involutive in H. cbn in H.
    apply trimStart_nil in H. rewrite forallb_rev in H.
    destruct (trimStart s) as [|c r] eqn:E; [now apply trimStart_nil|].
    pose proof (trimStart_head s) as Hh. rewrite E in Hh.
    cbn in H. rewrite Hh in H. discriminate.
  - intros H. apply trimStart_nil in H. now rewrite H.
Qed.

(** *** Removing a file *)

Lemma filterIndex_out (A : Type) (items : list A) :
  forall i index : Z,
  (index < i \/ i + Z.of_nat (List.length items) <= index)%Z ->
  Home.filterIndex i index items = items.
Proof.
  induction items as [|item rest IH]; intros i index H; cbn [Home.filterIndex]; [reflexivity|].
  cbn [List.length] in H.
  destruct (i =? index)%Z eqn:E; [lia|]. f_equal. apply IH. lia.
Qed.

Lemma filterIndex_in (A : Type) (items : list A) :
  forall (i : Z) (n : nat),
  (n < List.length items)%nat ->
  Home.filterIndex i (i + Z.of_nat n) items = firstn n items ++ skipn (S n) items.
Proof.
  induction items as [|item rest IH]; intros i n H; cbn [List.length] in H; [lia|].
  cbn [Home.filterIndex]. destruct n as [|n].
  - replace (i + Z.of_nat 0)%Z with i by lia. rewrite Z.eqb_refl.
    cbn [firstn skipn app]. apply filterIndex_out. lia.
  - destruct (Z.eqb_spec i (i + Z.of_nat (S n))) as [E|E]; [lia|].
    cbn [firstn skipn app]. f_equal.
    replace (i + Z.of_nat (S n))%Z with ((i + 1) + Z.of_nat n)%Z by lia.
    apply IH. lia.
Qed.


(** X17: [removeFile] with the index of a file drops that file and keeps the
    others in their order; with any other index it changes nothing.  The
    rest of the state is never touched. *)
Theorem removeFile_drops_one (st : Home.State) :
  (forall n : nat,
     (n < List.length (Home.files st))%nat ->
     Home.files (Home.removeFile st (Z.of_nat n))
     = firstn n (Home.files st) ++ skipn (S n) (Home.files st))
  /\ (forall index : Z,
        (index < 0 \/ Z.of_nat (List.length (Home.files st)) <= index)%Z ->
        Home.files (Home.removeFile st index) = Home.files st)
  /\ (forall index : Z,
        Home.ticket (Home.removeFile st index) = Home.ticket st
        /\ Home.loading (Home.removeFile st index) = Home.loading st
        /\ Home.analysis (Home.removeFile st index) = Home.analysis st
        /\ Home.error (Home.removeFile st index) = Home.error st).
Proof.
  split; [|split].
  - intros n H. cbn. now apply (filterIndex_in _ (Home.files st) 0 n).
  - intros index H. cbn. apply filterIndex_out. lia.
  - intros index. repeat split.
Qed.

Section Analyze.

Variable File_text : File -> Completion jsstring.
Variable mammoth_extractRawText : File -> Completion jsstring.
Variable pdfjs_getDocument : File -> Completion (list (Completion (list TextItem))).

Local Notation "'collect'" :=
  (collectAttachments File_text mammoth_extractRawText pdfjs_getDocument).
Local Notation "'toAttachment''" :=
  (toAttachment File_text mammoth_extractRawText pdfjs_getDocument).

(** X9: what [handleAnalyze] sends.  It returns at once, without reading
    a file, exactly when the ticket is blank.  With a ticket that is not
    blank it sends a body only if the attachments can be collected, and
    the body is then the object of the ticket as typed (not trimmed) and
    the attachments, each an object of its name, mime and text; if the
    collection throws, that error is the outcome and nothing is sent. *)
Theorem handleAnalyze_request (ticket : jsstring) (files : list File) :
  match Page.handleAnalyze File_text mammoth_extractRawText pdfjs_getDocument ticket files with
  | None => forallb isWhiteSpace ticket = true
  | Some (Normal body) =>
      forallb isWhiteSpace ticket = false
      /\ exists attachments,
           collect files = Normal attachments
           /\ body = JObject
                       [ (lit "ticket", JString ticket);
                         (lit "attachments",
                          JArray (map (fun a =>
                                         JObject [ (lit "name", JString (att_name a));
                                                   (lit "mime", JString (att_mime a));
                                                   (lit "text", JString (att_text a)) ])
                                    attachments)) ]
  | Some (Throw e) =>
      forallb isWhiteSpace ticket = false /\ collect files = Throw e
  end.
Proof.
  unfold Page.handleAnalyze.
  destruct (trim ticket) as [|c rest] eqn:E.
  - now apply trim_nil.
  - assert (B : forallb isWhiteSpace ticket = false).
    { destruct (forallb isWhiteSpace ticket) eqn:F; [|reflexivity].
      apply trim_nil in F. congruence. }
    destruct (collect files) as [attachments|e]; cbn [cbind].
    + split; [exact B|]. now exists attachments.
    + now split.
Qed.


(** X11: a plain-text upload that cannot be read fails the whole collection:
    no attachment of any sibling is kept. *)
Theorem collectAttachments_unreadable_text (files : list File) (file : File) (e : Thrown) :
  In file files ->
  endsWith (name file) (lit ".docx") = false ->
  endsWith (name file) (lit ".pdf") = false ->
  isPlainText file = true ->
  File_text file = Throw e ->
  exists e', collect files = Throw e'.
Proof.
  intros Hin Hd Hp Ht Hr. induction files as [|f files IH]; [contradiction|].
  rewrite PageFacts.collectAttachments_cons.
  destruct Hin as [-> | Hin].
  - unfold toAttachment. rewrite Hd, Hp. fold (isPlainText file). rewrite Ht, Hr.
    now exists e.
  - destruct (IH Hin) as (e' & ->).
    destruct (toAttachment' f) as [a|e0]; cbn [cbind]; eexists; reflexivity.
Qed.


(** *** The text of a PDF *)

Lemma pdfPages_normal (pages : list (list TextItem)) :
  forall fullText,
  pdfPages fullText (map Normal pages)
  = Normal (fullText ++ flat_map (fun items => pageText items ++ [nl; nl]) pages).
Proof.
  induction pages as [|items pages IH]; intros fullText; cbn [map pdfPages flat_map cbind].
  - now rewrite app_nil_r.
  - rewrite IH. now rewrite <- !app_assoc.
Qed.

Lemma pdfPages_throw (pages : list (Completion (list TextItem))) (e : Thrown) :
  In (Throw e) pages -> forall fullText, exists e', pdfPages fullText pages = Throw e'.
Proof.
  induction pages as [|page pages IH]; intros Hin fullText; [contradiction|].
  cbn [pdfPages]. destruct Hin as [-> | Hin]; [now exists e|].
  destruct page as [items|e0]; cbn [cbind]; [now apply IH|now exists e0].
Qed.


(** X14: when the document or any one of its pages cannot be read, the text
    is the placeholder that names the file: no page read before the
    failure is kept. *)
Theorem extractTextFromPdf_failure (file : File) :
  (exists e, pdfjs_getDocument file = Throw e)
  \/ (exists pages e, pdfjs_getDocument file = Normal pages /\ In (Throw e) pages) ->
  extractTextFromPdf pdfjs_getDocument file
  = lit "[Error reading " ++ name file ++ lit ": Could not extract text from PDF file]".
Proof.
  intros [(e & H) | (pages & e & H & Hin)]; unfold extractTextFromPdf; rewrite H;
    cbn [cbind]; [reflexivity|].
  destruct (pdfPages_throw pages e Hin []) as (e' & ->). reflexivity.
Qed.

End Analyze.
End HomeFacts.

(** ** The delimited-text export, read back *)

Module CsvFacts.
Import JS Page JSFacts CsvReader.

Lemma readCells_inside (cell : jsstring) :
  ~ In dq cell ->
  forall acc rest,
  readCells (Some acc) (cell ++ dq :: rest) = (rev acc ++ cell) :: readCells None rest.
Proof.
  induction cell as [|c cell IH]; intros H acc rest.
  - cbn. now rewrite app_nil_r.
  - cbn [app readCells]. destruct (c =? dq) eqn:E.
    + apply N.eqb_eq in E. subst c. elim H. now left.
    + rewrite IH by (intros F; apply H; now right).
      cbn [rev]. now rewrite <- app_assoc.
Qed.

Lemma readCells_quoteCell (cell rest : jsstring) :
  ~ In dq cell -> readCells None (quoteCell cell ++ rest) = cell :: readCells None rest.
Proof.
  intros H. unfold quoteCell. rewrite <- !app_assoc. cbn [app readCells].
  rewrite N.eqb_refl. exact (readCells_inside cell H [] rest).
Qed.

Lemma readCells_csvRow (cells : list jsstring) :
  Forall (fun cell => ~ In dq cell) cells ->
  forall rest, readCells None (csvRow cells ++ rest) = cells ++ readCells None rest.
Proof.
  unfold csvRow. induction cells as [|cell cells IH]; intros H rest; [reflexivity|].
  inversion H as [|? ? Hc Hcs]; subst.
  destruct cells as [|cell' cells].
  - cbn [map join]. now rewrite readCells_quoteCell.
  - change (join (lit ",") (map quoteCell (cell :: cell' :: cells)))
      with (quoteCell cell ++ lit "," ++ join (lit ",") (map quoteCell (cell' :: cells))).
    rewrite <- !app_assoc. rewrite readCells_quoteCell by assumption.
    cbn [lit app readCells]. change (N_of_ascii "," =? dq) with false. cbn iota.
    now rewrite IH.
Qed.

Lemma readCells_rows (rows : list (list jsstring)) :
  Forall (Forall (fun cell => ~ In dq cell)) rows ->
  readCells None (join [nl] (map csvRow rows)) = List.concat rows.
Proof.
  induction rows as [|row rows IH]; intros H; [reflexivity|].
  inversion H as [|? ? Hr Hrs]; subst.
  destruct rows as [|row' rows].
  - cbn [map join List.concat]. rewrite <- (app_nil_r (csvRow row)).
    rewrite readCells_csvRow by assumption. reflexivity.
  - change (join [nl] (map csvRow (row :: row' :: rows)))
      with (csvRow row ++ [nl] ++ join [nl] (map csvRow (row' :: rows))).
    rewrite readCells_csvRow by assumption.
    cbn [app readCells]. change (nl =? dq) with false. cbn iota.
    rewrite IH by assumption. reflexivity.
Qed.

Lemma app_inj_length {A} (a b c d : list A) :
  List.length a = List.length b -> a ++ c = b ++ d -> a = b /\ c = d.
Proof.
  revert b. induction a as [|x a IH]; intros [|y b] Hl E; try discriminate.
  - now split.
  - injection E as -> E. injection Hl as Hl. destruct (IH b Hl E) as [-> ->]. now split.
Qed.

Lemma concat_inj_rows {A} (n : nat) (l1 l2 : list (list A)) :
  Forall (fun r => List.length r = S n) l1 ->
  Forall (fun r => List.length r = S n) l2 ->
  List.concat l1 = List.concat l2 -> l1 = l2.
Proof.
  revert l2. induction l1 as [|r1 l1 IH]; intros [|r2 l2] H1 H2 E; try reflexivity.
  - inversion H2 as [|? ? Hr _]; subst. destruct r2; discriminate.
  - inversion H1 as [|? ? Hr _]; subst. destruct r1; discriminate.
  - inversion H1 as [|? ? Hr1 Hl1]; inversion H2 as [|? ? Hr2 Hl2]; subst.
    cbn [List.concat] in E.
    destruct (app_inj_length r1 r2 _ _ (eq_trans Hr1 (eq_sym Hr2)) E) as [-> E'].
    f_equal. now apply IH.
Qed.

Lemma actionCells_quoteFree (a : Action) :
  quoteFree a -> Forall (fun cell => ~ In dq cell) (actionCells a).
Proof.
  intros (Ht & Ho & Hd). unfold actionCells. repeat constructor.
  - exact Ht.
  - rewrite PageFacts.orEmpty_default. destruct (owner a) as [o|]; [now apply Ho|intros []].
  - rewrite PageFacts.orEmpty_default.
    destruct (priority a) as [[| |]|]; cbn; intros F;
      repeat (destruct F as [F|F]; [discriminate|]); exact F.
  - rewrite PageFacts.orEmpty_default.
    destruct (due_window a) as [d|]; [now apply Hd|intros []].
Qed.

(** X18: for reports whose action fields hold no double quote the export
    loses nothing: it holds exactly the four header fields and then the
    four fields of each action, and two such reports with the same
    export have the same rows, field by field. *)
Theorem downloadCSV_keeps_fields (a1 a2 : Analysis) (csv1 csv2 : jsstring) :
  Forall quoteFree (actions a1) ->
  Forall quoteFree (actions a2) ->
  downloadCSV (Some a1) = Some csv1 ->
  downloadCSV (Some a2) = Some csv2 ->
  readCells None csv1 = csvHeader ++ List.concat (map actionCells (actions a1))
  /\ (csv1 = csv2 -> map actionCells (actions a1) = map actionCells (actions a2)).
Proof.
  intros H1 H2 E1 E2.
  assert (E1' : join [nl] (map csvRow (csvHeader :: map actionCells (actions a1))) = csv1)
    by (unfold downloadCSV in E1; congruence).
  assert (E2' : join [nl] (map csvRow (csvHeader :: map actionCells (actions a2))) = csv2)
    by (unfold downloadCSV in E2; congruence).
  clear E1 E2. subst csv1 csv2.
  assert (R : forall a, Forall quoteFree (actions a) ->
                readCells None (join [nl] (map csvRow (csvHeader :: map actionCells (actions a))))
                = csvHeader ++ List.concat (map actionCells (actions a))).
  { intros a Ha. rewrite readCells_rows; [reflexivity|].
    constructor.
    - repeat constructor; cbn; intros F;
        repeat (destruct F as [F|F]; [discriminate|]); exact F.
    - apply Forall_map. eapply Forall_impl; [|exact Ha].
      intros x. apply actionCells_quoteFree. }
  split; [now apply R|].
  intros E. apply (f_equal (readCells None)) in E. rewrite !R in E by assumption.
  apply app_inv_head in E.
  apply (concat_inj_rows 3); try assumption;
    apply Forall_map, Forall_forall; intros; reflexivity.
Qed.

End CsvFacts.

(** ** The pages of the PDF export *)

Module PdfFacts.
Import JS Page PdfPages.
Local Open Scope Q_scope.

(** With the height left in the band of page [j] the loop adds [j + 1]
    pages. *)
Lemma addPages_count (imgHeight : Q) :
  forall (j fuel : nat) (heightLeft : Q) (pdf : Pdf),
  inject_Z (Z.of_nat j) * pageHeight <= heightLeft ->
  heightLeft < inject_Z (Z.of_nat (S j)) * pageHeight ->
  (j < fuel)%nat ->
  exists pdf',
    addPages fuel imgHeight heightLeft pdf = Some pdf'
    /\ List.length pdf' = (List.length pdf + j + 1)%nat.
Proof.
  induction j as [|j IH]; intros fuel heightLeft pdf Hlo Hhi Hfuel;
    (destruct fuel as [|fuel]; [lia|]); cbn [addPages].
  - change (inject_Z (Z.of_nat 0)) with 0 in Hlo.
    change (inject_Z (Z.of_nat 1)) with 1 in Hhi.
    assert (E : Qle_bool 0 heightLeft = true).
    { apply Qle_bool_iff. unfold pageHeight, margin in *. lra. }
    rewrite E.
    assert (E' : Qle_bool 0 (heightLeft - pageHeight) = false).
    { apply not_true_is_false. intros C. apply Qle_bool_iff in C.
      unfold pageHeight, margin in *. lra. }
    destruct fuel as [|fuel]; cbn [addPages]; rewrite E';
      (eexists; split; [reflexivity|]);
      rewrite PageFacts.addImage_addPage, length_app; cbn; lia.
  - rewrite Nat2Z.inj_succ in Hlo. unfold Z.succ in Hlo. rewrite inject_Z_plus in Hlo.
    rewrite (Nat2Z.inj_succ (S j)) in Hhi. unfold Z.succ in Hhi.
    rewrite inject_Z_plus in Hhi.
    change (inject_Z 1) with 1 in Hlo, Hhi.
    assert (Hj : 0 <= inject_Z (Z.of_nat j)).
    { change 0 with (inject_Z 0). rewrite <- Zle_Qle. lia. }
    assert (E : Qle_bool 0 heightLeft = true).
    { apply Qle_bool_iff. unfold pageHeight, margin in *. lra. }
    rewrite E.
    destruct (IH fuel (heightLeft - pageHeight)
                (addImage (addPage pdf)
                   {| x := margin; y := margin - (imgHeight - heightLeft);
                      w := imgWidth; h := imgHeight |})) as (pdf' & Hrun & Hlen).
    + unfold pageHeight, margin in *. lra.
    + unfold pageHeight, margin in *. lra.
    + lia.
    + exists pdf'. split; [exact Hrun|].
      rewrite Hlen, PageFacts.addImage_addPage, length_app. cbn. lia.
Qed.

(** X19: in exact arithmetic, an image whose scaled height lies between [k]
    and [k + 1] usable page heights, [k] included, is laid out on [k + 1]
    pages: one page below a page height, and one page more than the
    height fills when it is a whole number of pages. *)
Theorem downloadPDF_page_count (k fuel : nat) (canvas : Canvas) :
  (0 < width canvas)%Z ->
  let imgHeight := (inject_Z (height canvas) * imgWidth) / inject_Z (width canvas) in
  inject_Z (Z.of_nat k) * pageHeight <= imgHeight ->
  imgHeight < inject_Z (Z.of_nat (S k)) * pageHeight ->
  (k <= fuel)%nat ->
  exists pdf, downloadPDF fuel canvas = Some pdf /\ List.length pdf = S k.
Proof.
  intros Hw imgHeight Hlo Hhi Hfuel. unfold downloadPDF. fold imgHeight.
  destruct k as [|k].
  - change (inject_Z (Z.of_nat 1)) with 1 in Hhi.
    assert (E : Qle_bool 0 (imgHeight - pageHeight) = false).
    { apply not_true_is_false. intros C. apply Qle_bool_iff in C.
      unfold pageHeight, margin in *. lra. }
    destruct fuel; cbn [addPages]; rewrite E; eexists; split; reflexivity.
  - rewrite Nat2Z.inj_succ in Hlo. unfold Z.succ in Hlo. rewrite inject_Z_plus in Hlo.
    rewrite (Nat2Z.inj_succ (S k)) in Hhi. unfold Z.succ in Hhi.
    rewrite inject_Z_plus in Hhi.
    change (inject_Z 1) with 1 in Hlo, Hhi.
    destruct (addPages_count imgHeight k fuel (imgHeight - pageHeight)
                (addImage newPdf
                   {| x := margin; y := margin; w := imgWidth; h := imgHeight |}))
      as (pdf & Hrun & Hlen).
    + unfold pageHeight, margin in *. lra.
    + unfold pageHeight, margin in *. lra.
    + lia.
    + exists pdf. split; [exact Hrun|]. rewrite Hlen. cbn. lia.
Qed.

Lemma addPages_placed (imgHeight : Q) :
  forall fuel heightLeft pdf pdf',
  heightLeft == imgHeight - inject_Z (Z.of_nat (List.length pdf)) * pageHeight ->
  (forall i page, nth_error pdf i = Some page -> placedAt imgHeight i page) ->
  addPages fuel imgHeight heightLeft pdf = Some pdf' ->
  forall i page, nth_error pdf' i = Some page -> placedAt imgHeight i page.
Proof.
  induction fuel as [|fuel IH]; intros heightLeft pdf pdf' Hh Hl; cbn [addPages];
    destruct (Qle_bool 0 heightLeft); try discriminate;
    try (intros E; injection E as <-; exact Hl).
  rewrite PageFacts.addImage_addPage. apply IH.
  - rewrite length_app. cbn [List.length]. rewrite Nat.add_1_r, Nat2Z.inj_succ.
    unfold Z.succ. rewrite inject_Z_plus, Hh. ring.
  - intros i page Hi.
    destruct (Nat.lt_ge_cases i (List.length pdf)) as [Hlt|Hge].
    + rewrite nth_error_app1 in Hi by assumption. now apply Hl.
    + rewrite nth_error_app2 in Hi by assumption.
      destruct (i - List.length pdf)%nat as [|n] eqn:En.
      * cbn in Hi. injection Hi as <-. replace i with (List.length pdf) by lia.
        eexists. split; [reflexivity|]. cbn [x y w h].
        repeat split; try reflexivity. rewrite Hh. ring.
      * cbn in Hi. destruct n; discriminate.
Qed.

(** X20: for a canvas of positive width, in every document laid out each
    page holds exactly one placement of the image, 15 mm from the left
    edge and 180 mm wide, and on page [i] (from 0) its top is at
    15 - 267 i mm: each page shifts the whole image up by one more usable
    page height. *)
Theorem downloadPDF_placements (fuel : nat) (canvas : Canvas) (pdf : Pdf) :
  (0 < width canvas)%Z ->
  downloadPDF fuel canvas = Some pdf ->
  forall i page,
    nth_error pdf i = Some page ->
    exists p,
      page = [p] /\ x p == 15 /\ w p == 180
      /\ y p == 15 - inject_Z (Z.of_nat i) * 267.
Proof.
  unfold downloadPDF. intros _ H i page Hi.
  assert (P : placedAt ((inject_Z (height canvas) * imgWidth) / inject_Z (width canvas))
                i page).
  { eapply (addPages_placed _ _ _ _ pdf); [| |exact H|exact Hi].
    - cbn. ring.
    - intros j pg Hj. destruct j as [|j]; cbn in Hj.
      + injection Hj as <-. eexists. split; [reflexivity|]. cbn.
        repeat split; try reflexivity; ring.
      + destruct j; discriminate. }
  destruct P as (p & Hp & Hx & Hw & _ & Hy).
  exists p. split; [exact Hp|]. split; [exact Hx|]. split.
  - rewrite Hw. reflexivity.
  - rewrite Hy. unfold pageHeight, margin. lra.
Qed.

End PdfFacts.

(** ** [handleAnalyze], from the click to the state *)

Module AnalyzeFacts.
Import JS Page.

Section Analyze.

Variable File_text : File -> Completion jsstring.
Variable mammoth_extractRawText : File -> Completion jsstring.
Variable pdfjs_getDocument : File -> Completion (list (Completion (list TextItem))).
Variable JSON_stringify : JsValue -> jsstring.

Local Notation "'collect'" :=
  (collectAttachments File_text mammoth_extractRawText pdfjs_getDocument).

Section Fetch.

Variable fetch : JsValue -> Completion Route.Response.

Local Notation "'handle'" :=
  (Home.handleAnalyze File_text mammoth_extractRawText pdfjs_getDocument fetch JSON_stringify).
Local Notation "'analyze''" :=
  (Home.analyze File_text mammoth_extractRawText pdfjs_getDocument fetch JSON_stringify).

(** The state the request is made from. *)
Lemma handleAnalyze_run (st : Home.State) :
  forallb isWhiteSpace (Home.ticket st) = false ->
  handle st =
  let st0 := Home.setAnalysis (Home.setError (Home.setLoading st true) []) JNull in
  match analyze' st0 with
  | Normal analysis => (Home.setLoading (Home.setAnalysis st0 analysis) false, [])
  | Throw err =>
      (Home.setLoading (Home.setError st0 (Route.errorMessage err)) false,
       [Route.ConsoleError (lit "Analysis error:") (Some err)])
  end.
Proof.
  intros H. unfold Home.handleAnalyze.
  destruct (trim (Home.ticket st)) eqn:E; [|reflexivity].
  apply HomeFacts.trim_nil in E. congruence.
Qed.

(** X15: a blank ticket only sets the error message: nothing is collected
    or fetched and the rest of the state stays.  With any other ticket the
    page is never left loading, ticket and files stay, and either the
    error is empty and the analysis is the [analysis] of a response with a
    2xx status, or the analysis is [null] and the failure is written to
    the console. *)
Theorem handleAnalyze_settles (st : Home.State) :
  (forallb isWhiteSpace (Home.ticket st) = true ->
   handle st = (Home.setError st (lit "Please enter a ticket description"), []))
  /\ (forallb isWhiteSpace (Home.ticket st) = false ->
      match handle st with
      | (st', said) =>
          Home.loading st' = false
          /\ Home.ticket st' = Home.ticket st
          /\ Home.files st' = Home.files st
          /\ ((Home.error st' = [] /\ said = []
               /\ exists attachments response,
                    collect (Home.files st) = Normal attachments
                    /\ fetch (requestBody (Home.ticket st) attachments) = Normal response
                    /\ Home.ok response = true
                    /\ Get (Route.body response) (lit "analysis")
                       = Normal (Home.analysis st'))
              \/ (Home.analysis st' = JNull
                  /\ exists err,
                       Home.error st' = Route.errorMessage err
                       /\ said = [Route.ConsoleError (lit "Analysis error:") (Some err)]))
      end).
Proof.
  split.
  - intros H. apply HomeFacts.trim_nil in H. unfold Home.handleAnalyze. now rewrite H.
  - intros H. rewrite (handleAnalyze_run st H). cbv zeta.
    unfold Home.analyze. cbn [Home.files Home.ticket Home.setAnalysis Home.setError Home.setLoading].
    destruct (collect (Home.files st)) as [attachments|e] eqn:Ec; cbn [cbind].
    2:{ repeat split. right. split; [reflexivity|]. now exists e. }
    destruct (fetch (requestBody (Home.ticket st) attachments)) as [response|e] eqn:Ef;
      cbn [cbind].
    2:{ repeat split. right. split; [reflexivity|]. now exists e. }
    destruct (Home.ok response) eqn:Eo; cbn [negb].
    + destruct (Get (Route.body response) (lit "analysis")) as [a|e] eqn:Eg.
      * repeat split. left. repeat split. exists attachments, response. auto.
      * repeat split. right. split; [reflexivity|]. now exists e.
    + repeat split. right. split; [reflexivity|]. eexists. split; reflexivity.
Qed.

End Fetch.

Variable Number_toString : float -> jsstring.
Variable JSON_parse : jsstring -> Completion JsValue.
Variable create : list Route.ChatRequest -> Route.ChatRequest -> Completion Route.ChatCompletion.
Variable key : option jsstring.

Local Notation "'viaRoute'" :=
  (Home.handleAnalyze File_text mammoth_extractRawText pdfjs_getDocument
     (Home.routeFetch Number_toString JSON_parse create key) JSON_stringify).


End Analyze.
End AnalyzeFacts.

(** ** The further statements at concrete inputs *)

Module MoreExamples.
Import JS Route.

Lemma without_notIn (x : char16) (s : jsstring) : MoreSamples.without x s = true -> ~ In x s.
Proof.
  unfold MoreSamples.without. induction s as [|c s IH]; cbn; intros H F; [exact F|].
  apply andb_true_iff in H as [Hc Hs]. destruct F as [-> | F].
  - rewrite N.eqb_refl in Hc. discriminate.
  - exact (IH Hs F).
Defined.

(** The payload holds no back-tick and is parsed as it is. *)
Lemma stripFence_no_backtick_witness : stripFence Samples.payload = Samples.payload.
Proof.
  apply RouteMore.stripFence_no_backtick.
  apply without_notIn. vm_compute. reflexivity.
Defined.

(** The scenario that ends with status 200 after a repair: its analysis
    is what the decoder made of the fenced answer to the repair call, the
    last of the run. *)
Lemma POST_ok_is_parsed_witness :
  let create :=
    Samples.scripted [Samples.answer Samples.truncated;
                      Samples.answer (Samples.fencedJson Samples.payload)] in
  let request := Samples.requestOf (Samples.ticketBody (JString Samples.narrative)) in
  let analysis :=
    JObject [(lit "severity", JString (lit "High")); (lit "actions", JArray [])] in
  exists earlier req answer v,
    calls (snd (POST Samples.Number_toString Samples.JSON_parse create request initial))
    = (calls initial ++ earlier) ++ [req]
    /\ create (calls initial ++ earlier) req = Normal answer
    /\ Samples.JSON_parse (stripFence (contentOf answer)) = Normal v
    /\ {| status := 200; body := JObject [(lit "analysis", analysis)] |}
       = {| status := 200; body := JObject [(lit "analysis", v)] |}.
Proof.
  intros create request analysis.
  apply (RouteMore.POST_ok_is_parsed Samples.Number_toString Samples.JSON_parse create
           request initial {| status := 200; body := JObject [(lit "analysis", analysis)] |}).
  - vm_compute. reflexivity.
  - reflexivity.
Defined.





(** A log that cannot be read takes the DOCX beside it down with it. *)
Lemma collectAttachments_unreadable_text_witness :
  exists e,
    Page.collectAttachments MoreSamples.File_text_failing Samples.mammoth_extractRawText
      Samples.pdfjs_getDocument [Samples.report; Samples.trace]
    = Throw e.
Proof.
  apply (HomeFacts.collectAttachments_unreadable_text
           MoreSamples.File_text_failing Samples.mammoth_extractRawText
           Samples.pdfjs_getDocument [Samples.report; Samples.trace] Samples.trace
           MoreSamples.notReadable).
  - right. left. reflexivity.
  - reflexivity.
  - reflexivity.
  - reflexivity.
  - reflexivity.
Defined.



(** A PDF whose second page cannot be read. *)
Lemma extractTextFromPdf_failure_witness :
  Page.extractTextFromPdf MoreSamples.pdfjs_failing MoreSamples.scan
  = lit "[Error reading scan.pdf: Could not extract text from PDF file]".
Proof.
  apply (HomeFacts.extractTextFromPdf_failure MoreSamples.pdfjs_failing MoreSamples.scan).
  right. exists [Normal [Some (Page.bytes MoreSamples.scan)]; Throw MoreSamples.notReadable].
  exists MoreSamples.notReadable. split; [reflexivity|]. right. left. reflexivity.
Defined.

Lemma oneAction_quoteFree : Forall CsvReader.quoteFree [Samples.oneAction].
Proof.
  constructor; [|constructor]. split; [|split].
  - apply without_notIn. vm_compute. reflexivity.
  - intros o H. discriminate.
  - intros d H. discriminate.
Defined.

(** The export of the small report, read back. *)
Lemma downloadCSV_keeps_fields_witness :
  exists csv,
    Page.downloadCSV (Some MoreSamples.smallReport) = Some csv
    /\ CsvReader.readCells None csv
       = [lit "Title"; lit "Owner"; lit "Priority"; lit "Due Window";
          lit "Rotate credentials"; []; []; []].
Proof.
  eexists. split; [reflexivity|].
  exact (proj1 (CsvFacts.downloadCSV_keeps_fields
                  MoreSamples.smallReport MoreSamples.smallReport _ _
                  oneAction_quoteFree oneAction_quoteFree eq_refl eq_refl)).
Defined.

(** A page and a half: two pages. *)
Lemma downloadPDF_page_count_witness :
  exists pdf,
    Page.downloadPDF 10 MoreSamples.tallCanvas = Some pdf /\ List.length pdf = 2%nat.
Proof.
  apply (PdfFacts.downloadPDF_page_count 1 10 MoreSamples.tallCanvas).
  - reflexivity.
  - vm_compute. discriminate.
  - vm_compute. reflexivity.
  - lia.
Defined.

(** The second of the two pages holds the image 267 mm up. *)
Lemma downloadPDF_placements_witness :
  exists p,
    nth 1 MoreSamples.tallPdf [] = [p]
    /\ (Page.x p == 15)%Q /\ (Page.w p == 180)%Q
    /\ (Page.y p == 15 - inject_Z 1 * 267)%Q.
Proof.
  exact (PdfFacts.downloadPDF_placements 10 MoreSamples.tallCanvas MoreSamples.tallPdf
           ltac:(reflexivity) ltac:(vm_compute; reflexivity)
           1%nat (nth 1 MoreSamples.tallPdf []) eq_refl).
Defined.


End MoreExamples.
